(** * sie_banxico: a shallow embedding of the [SIEBanxico] client

    The Python class [SIEBanxico] (src/sie_banxico/sie_banxico.py) wraps the
    REST API of the Economic Information System of Banco de México.  The
    class holds a token, a series selector and a language, checks the
    dynamic type of every argument, builds a URL and calls [requests.get].

    The embedding keeps the code's dynamic typing (arguments and attributes
    are Python values), its exceptions (a raise keeps every mutation made
    before it) and its only effect on the outside world (the requests
    handed to the HTTP transport, recorded in order). *)

From Stdlib Require Import Ascii String.
From stdpp Require Import base decidable option list gmap strings pretty.

Set Warnings "-register-all".

Open Scope Z_scope.

(** ** Python values *)

(** The builtin values that can reach the class: arguments of any type,
    and the decoded JSON body of a response.  Subclasses of [str] and
    [list] are not modelled, so [type(x) != str] and
    [not isinstance(x, str)] coincide. *)
Inductive pyval : Type :=
| PyNone
| PyBool (b : bool)
| PyInt (n : Z)
| PyStr (s : string)
| PyList (items : list pyval)
| PyDict (entries : list (string * pyval)).

Inductive pytype : Type := NoneType | bool_ | int_ | str_ | list_ | dict_.

Global Instance pytype_eq_dec : EqDecision pytype.
Proof. solve_decision. Defined.

(** [type(x)] *)
Definition type_ (x : pyval) : pytype :=
  match x with
  | PyNone => NoneType
  | PyBool _ => bool_
  | PyInt _ => int_
  | PyStr _ => str_
  | PyList _ => list_
  | PyDict _ => dict_
  end.

(** [type(x).__name__] *)
Definition type_name (t : pytype) : string :=
  match t with
  | NoneType => "NoneType"
  | bool_ => "bool"
  | int_ => "int"
  | str_ => "str"
  | list_ => "list"
  | dict_ => "dict"
  end.

(** [isinstance(x, ts)] for a tuple of builtin types *)
Definition isinstance (x : pyval) (ts : list pytype) : bool :=
  bool_decide (type_ x ∈ ts).

(** The two characters that a Rocq string literal cannot hold directly:
    the double quote and the line feed of the error messages. *)
Definition dq : string := String "034"%char "".
Definition nl : string := String "010"%char "".

(** ** Exceptions *)

(** The classes raised by the module ([TypeError], [ValueError],
    [RequestException]) and two that the [requests] library may raise on
    its own.  The module has no [except] clause, so the class hierarchy is
    not modelled. *)
Inductive exn_class : Type :=
| TypeError | ValueError | RequestException | ConnectionError | JSONDecodeError.

Global Instance exn_class_eq_dec : EqDecision exn_class.
Proof. solve_decision. Defined.

Record exn : Type := Exn { exn_cls : exn_class; exn_msg : string }.

Inductive result (A : Type) : Type :=
| Ok (a : A)
| Raise (e : exn).
Arguments Ok {A} a.
Arguments Raise {A} e.

Definition raises {A} (r : result A) (c : exn_class) : Prop :=
  match r with Raise e => exn_cls e = c | Ok _ => False end.

Definition returned {A} (r : result A) : Prop :=
  match r with Ok _ => True | Raise _ => False end.

(** ** Operators on values *)

Definition int_of (x : pyval) : option Z :=
  match x with
  | PyBool b => Some (if b then 1 else 0)
  | PyInt n => Some n
  | _ => None
  end.

Definition unsupported (op : string) (a b : pyval) : exn :=
  Exn TypeError ("unsupported operand type(s) for " +:+ op +:+ ": '"
                 +:+ type_name (type_ a) +:+ "' and '"
                 +:+ type_name (type_ b) +:+ "'").

Definition cannot_concat (a b : pyval) : exn :=
  Exn TypeError ("can only concatenate " +:+ type_name (type_ a) +:+ " (not "
                 +:+ dq +:+ type_name (type_ b) +:+ dq +:+ ") to "
                 +:+ type_name (type_ a)).

(** [a + b] *)
Definition py_add (a b : pyval) : result pyval :=
  match a, b with
  | PyStr s, PyStr t => Ok (PyStr (s +:+ t))
  | PyStr _, _ => Raise (cannot_concat a b)
  | PyList l, PyList k => Ok (PyList (l ++ k))
  | PyList _, _ => Raise (cannot_concat a b)
  | _, _ =>
      match int_of a, int_of b with
      | Some m, Some n => Ok (PyInt (m + n))
      | _, _ => Raise (unsupported "+" a b)
      end
  end.

Definition chars (s : string) : list pyval :=
  (λ c, PyStr (String c "")) <$> list_ascii_of_string s.

(** [a += b] evaluated on the value held by [a]: a list is extended with
    the items of any iterable; every other type falls back on [a + b]. *)
Definition py_iadd (a b : pyval) : result pyval :=
  match a with
  | PyList l =>
      match b with
      | PyList k => Ok (PyList (l ++ k))
      | PyStr s => Ok (PyList (l ++ chars s))
      | PyDict d => Ok (PyList (l ++ ((λ kv, PyStr kv.1) <$> d)))
      | _ => Raise (Exn TypeError ("'" +:+ type_name (type_ b)
                                   +:+ "' object is not iterable"))
      end
  | PyStr _ => py_add a b
  | _ =>
      match int_of a, int_of b with
      | Some m, Some n => Ok (PyInt (m + n))
      | _, _ => Raise (unsupported "+=" a b)
      end
  end.

(** [sep.join(items)]: the items are checked left to right, and the first
    one that is not a [str] raises [TypeError] with its position. *)
Fixpoint join_from (i : nat) (sep : string) (items : list pyval) : result string :=
  match items with
  | [] => Ok ""
  | PyStr s :: rest =>
      match join_from (S i) sep rest with
      | Ok t => Ok (match rest with [] => s | _ => s +:+ sep +:+ t end)
      | Raise e => Raise e
      end
  | x :: _ =>
      Raise (Exn TypeError ("sequence item " +:+ pretty i
                            +:+ ": expected str instance, "
                            +:+ type_name (type_ x) +:+ " found"))
  end.

(** [sep.join(items)] for a list [items] *)
Definition str_join (sep : string) (items : list pyval) : result string :=
  join_from 0 sep items.

(** ** The HTTP transport *)

(** What [requests.get(url, headers = h, params = p)] is given. *)
Record Request : Type := mkRequest {
  req_url : pyval;
  req_headers : gmap string pyval;
  req_params : gmap string pyval
}.

(** What the module reads from the response: [response.status_code] and
    the outcome of [response.json()]. *)
Record Response : Type := mkResponse {
  status_code : Z;
  json : result pyval
}.

(** ** The object and the state monad *)

Record SIEBanxico : Type := mkSIEBanxico {
  token : pyval;
  series : pyval;
  __url : pyval;
  __headers : gmap string pyval;
  __params : gmap string pyval;
  __language : pyval
}.

(** The program state: the object [self] and the requests handed to the
    transport so far, oldest first. *)
Record State : Type := mkState {
  self : SIEBanxico;
  sent : list Request
}.

(** A method body: it reads and updates the state, and returns or raises.
    A raise keeps the state reached so far. *)
Definition M (A : Type) : Type := State → result A * State.

Global Instance M_ret : MRet M := λ A a st, (Ok a, st).
Global Instance M_bind : MBind M := λ A B f m st,
  match m st with
  | (Ok a, st') => f a st'
  | (Raise e, st') => (Raise e, st')
  end.

Definition raise {A} (e : exn) : M A := λ st, (Raise e, st).
Definition lift {A} (r : result A) : M A := λ st, (r, st).
Definition get_self : M SIEBanxico := λ st, (Ok (self st), st).
Definition put_self (c : SIEBanxico) : M unit :=
  λ st, (Ok (), mkState c (sent st)).

(** Attribute stores, [self.x = v]. *)
Definition with_token (v : pyval) (c : SIEBanxico) : SIEBanxico :=
  mkSIEBanxico v (series c) (__url c) (__headers c) (__params c) (__language c).
Definition with_series (v : pyval) (c : SIEBanxico) : SIEBanxico :=
  mkSIEBanxico (token c) v (__url c) (__headers c) (__params c) (__language c).
Definition with_url (v : pyval) (c : SIEBanxico) : SIEBanxico :=
  mkSIEBanxico (token c) (series c) v (__headers c) (__params c) (__language c).
Definition with_headers (v : gmap string pyval) (c : SIEBanxico) : SIEBanxico :=
  mkSIEBanxico (token c) (series c) (__url c) v (__params c) (__language c).
Definition with_params (v : gmap string pyval) (c : SIEBanxico) : SIEBanxico :=
  mkSIEBanxico (token c) (series c) (__url c) (__headers c) v (__language c).
Definition with_language (v : pyval) (c : SIEBanxico) : SIEBanxico :=
  mkSIEBanxico (token c) (series c) (__url c) (__headers c) (__params c) v.

Definition set_attr_token (v : pyval) : M unit :=
  c ← get_self; put_self (with_token v c).
Definition set_attr_series (v : pyval) : M unit :=
  c ← get_self; put_self (with_series v c).
Definition set_attr_url (v : pyval) : M unit :=
  c ← get_self; put_self (with_url v c).
Definition set_attr_headers (v : gmap string pyval) : M unit :=
  c ← get_self; put_self (with_headers v c).
Definition set_attr_params (v : gmap string pyval) : M unit :=
  c ← get_self; put_self (with_params v c).
Definition set_attr_language (v : pyval) : M unit :=
  c ← get_self; put_self (with_language v c).

(** [self.__params[k] = v]: the dictionary is updated in place. *)
Definition params_setitem (k : string) (v : pyval) : M unit :=
  c ← get_self;
  set_attr_params (<[k := v]> (__params c)).

(** ** The methods of the class *)

Definition base_url : string :=
  "https://www.banxico.org.mx/SieAPIRest/service/v1/series/".

Definition set_token (token : pyval) : M unit :=
  if bool_decide (type_ token ≠ str_) then
    raise (Exn TypeError (dq +:+ "token" +:+ dq +:+ " must be a string."))
  else
    set_attr_token token.

Definition set_id_series (id_series : pyval) : M unit :=
  if negb (isinstance id_series [list_; str_]) then
    raise (Exn TypeError (dq +:+ "id_series" +:+ dq
                          +:+ " must be a list with strings or a single string."))
  else
    match id_series with
    | PyList items =>
        s ← lift (str_join "," items);
        set_attr_series (PyStr s)
    | _ => set_attr_series id_series
    end.

Definition append_id_series (id_series : pyval) : M unit :=
  match id_series with
  | PyList items =>
      c ← get_self;
      j ← lift (str_join "," items);
      rhs ← lift (py_add (PyStr ",") (PyStr j));
      s ← lift (py_iadd (series c) rhs);
      set_attr_series s
  | _ =>
      raise (Exn TypeError (dq +:+ "id_series" +:+ dq +:+ " must be a list with strings."))
  end.

(** The chain [if type(l) != str / elif l == 'en' or l == 'es' / else] is
    written as a match on the value: the last two branches are reached by
    a [str] only, which the f-string of the last one prints as it is. *)
Definition __set_language : M unit :=
  c ← get_self;
  match __language c with
  | PyStr l =>
      if bool_decide (l = "en") || bool_decide (l = "es") then
        params_setitem "locale" (__language c)
      else
        raise (Exn ValueError (dq +:+ l +:+ dq +:+ " is not defined." +:+ nl
                 +:+ "Try " +:+ dq +:+ "en" +:+ dq +:+ " for english or "
                 +:+ dq +:+ "es" +:+ dq +:+ " for spanish."))
  | _ =>
      raise (Exn TypeError (dq +:+ "language" +:+ dq +:+ " must be a string."))
  end.

Definition pct_changes : list string := ["PorcObsAnt"; "PorcAnual"; "PorcAcumAnual"].

(** [if pct_change != None and type(pct_change) != str / elif pct_change
    not in [None, ...] / else], again as a match on the value: [None] is
    in the list, a [str] is looked up among the three literals, and every
    other value fails the first test. *)
Definition __set_pct_change (pct_change : pyval) : M unit :=
  match pct_change with
  | PyNone => params_setitem "incremento" pct_change
  | PyStr s =>
      if bool_decide (s ∈ pct_changes) then
        params_setitem "incremento" pct_change
      else
        raise (Exn ValueError (dq +:+ s +:+ dq +:+ " is not defined." +:+ nl
                 +:+ "Try None for levels, " +:+ dq +:+ "PorcObsAnt" +:+ dq
                 +:+ " for change rate compared to the previous observation, "
                 +:+ dq +:+ "PorcAnual" +:+ dq +:+ " for anual change rate, "
                 +:+ dq +:+ "PorcAcumAnual" +:+ dq
                 +:+ " for annual acummulated change rate."))
  | _ =>
      raise (Exn TypeError (dq +:+ "pct_change" +:+ dq +:+ " must be None or a string."))
  end.

Definition __init__ (token0 id_series language : pyval) : M unit :=
  set_attr_token PyNone;;
  set_token token0;;
  set_attr_series PyNone;;
  set_id_series id_series;;
  set_attr_url (PyStr base_url);;
  (c ← get_self; set_attr_headers {[ "Bmx-Token" := token c ]});;
  set_attr_params ∅;;
  set_attr_language language;;
  __set_language.

(** The object before [__init__] runs has no attribute; each field holds a
    placeholder that [__init__] overwrites before anything reads it. *)
Definition blank : SIEBanxico := mkSIEBanxico PyNone PyNone PyNone ∅ ∅ PyNone.

(** [SIEBanxico(token, id_series, language)]: the object when [__init__]
    returns, its exception otherwise.  The default of [language] is
    [PyStr "en"]. *)
Definition SIEBanxico_new (token0 id_series language : pyval) : result SIEBanxico :=
  match __init__ token0 id_series language (mkState blank []) with
  | (Ok _, st) => Ok (self st)
  | (Raise e, _) => Raise e
  end.

Section Transport.

(** [requests.get], an outside collaborator: given the requests made so
    far and the new one, it returns a response or raises. *)
Variable transport : list Request → Request → result Response.

(** [requests.get(url, headers = headers, params = params)] *)
Definition requests_get (url : pyval) (headers params : gmap string pyval)
  : M Response :=
  λ st, let r := mkRequest url headers params in
        (transport (sent st) r, mkState (self st) (sent st ++ [r])).

Definition get_metadata : M pyval :=
  __set_pct_change PyNone;;
  c ← get_self;
  url_metadata ← lift (py_add (__url c) (series c));
  response ← requests_get url_metadata (__headers c) (__params c);
  if bool_decide (status_code response ≠ 200) then
    raise (Exn RequestException
             ("Something go wrong with the request. Review the token or series id."
              +:+ nl +:+ "Status code: " +:+ pretty (status_code response)))
  else
    lift (json response).

Definition get_lastdata (pct_change : pyval) : M pyval :=
  __set_pct_change pct_change;;
  c ← get_self;
  u ← lift (py_add (__url c) (series c));
  url_lastdata ← lift (py_add u (PyStr "/datos/oportuno"));
  response ← requests_get url_lastdata (__headers c) (__params c);
  if bool_decide (status_code response ≠ 200) then
    raise (Exn RequestException
             ("Something go wrong with the request. Review the token or series id."
              +:+ nl +:+ "Status code: " +:+ pretty (status_code response)))
  else
    lift (json response).

Definition get_timeseries (pct_change : pyval) : M pyval :=
  __set_pct_change pct_change;;
  c ← get_self;
  u ← lift (py_add (__url c) (series c));
  url_timeseries ← lift (py_add u (PyStr "/datos"));
  response ← requests_get url_timeseries (__headers c) (__params c);
  if bool_decide (status_code response ≠ 200) then
    raise (Exn RequestException
             ("Something go wrong with the request. Review the token or series id."
              +:+ nl +:+ "Status code: " +:+ pretty (status_code response)))
  else
    lift (json response).

Definition get_timeseries_range (init_date end_date pct_change : pyval) : M pyval :=
  __set_pct_change pct_change;;
  if bool_decide (type_ init_date ≠ str_) || bool_decide (type_ end_date ≠ str_) then
    raise (Exn TypeError
             (dq +:+ "init_date" +:+ dq +:+ " and " +:+ dq +:+ "end_date" +:+ dq
              +:+ " must be a string in the format yyyy-mm-dd"))
  else
    c ← get_self;
    u1 ← lift (py_add (__url c) (series c));
    u2 ← lift (py_add u1 (PyStr "/datos/"));
    u3 ← lift (py_add u2 init_date);
    u4 ← lift (py_add u3 (PyStr "/"));
    url_timeseries_range ← lift (py_add u4 end_date);
    response ← requests_get url_timeseries_range (__headers c) (__params c);
    if bool_decide (status_code response ≠ 200) then
      raise (Exn RequestException
               ("Something go wrong with the request. Review the token, series id or date format."
                +:+ nl +:+ "Status code: " +:+ pretty (status_code response)))
    else
      lift (json response).

(** ** Calls of the public methods *)

Inductive call : Type :=
| Set_token (token0 : pyval)
| Set_id_series (id_series : pyval)
| Append_id_series (id_series : pyval)
| Get_metadata
| Get_lastdata (pct_change : pyval)
| Get_timeseries (pct_change : pyval)
| Get_timeseries_range (init_date end_date pct_change : pyval).

(** A mutator returns [None]. *)
Definition returning_None (m : M unit) : M pyval := m;; mret PyNone.

Definition invoke (k : call) : M pyval :=
  match k with
  | Set_token t => returning_None (set_token t)
  | Set_id_series i => returning_None (set_id_series i)
  | Append_id_series i => returning_None (append_id_series i)
  | Get_metadata => get_metadata
  | Get_lastdata p => get_lastdata p
  | Get_timeseries p => get_timeseries p
  | Get_timeseries_range i e p => get_timeseries_range i e p
  end.

(** The four methods that query the API. *)
Definition is_fetch (k : call) : bool :=
  match k with
  | Get_metadata | Get_lastdata _ | Get_timeseries _
  | Get_timeseries_range _ _ _ => true
  | _ => false
  end.

(** A program: calls made one after the other on the same object, as
    long as none raises. *)
Fixpoint run (ks : list call) : M (list pyval) :=
  match ks with
  | [] => mret []
  | k :: rest => v ← invoke k; vs ← run rest; mret (v :: vs)
  end.

(** The states a program can be in: a constructed object before any
    request, then the state after any call, whether it returned or
    raised. *)
Inductive reachable : State → Prop :=
| reach_new t i l c :
    SIEBanxico_new t i l = Ok c → reachable (mkState c [])
| reach_invoke k st :
    reachable st → reachable (invoke k st).2.

End Transport.

(** ** Words of the specification *)

(** The ids joined with the separator, in input order. *)
Fixpoint joined (sep : string) (ids : list string) : string :=
  match ids with
  | [] => ""
  | [s] => s
  | s :: rest => s +:+ sep +:+ joined sep rest
  end.

(** [pct_change] is [None] or one of the three literals. *)
Definition valid_pct (p : pyval) : bool :=
  match p with
  | PyNone => true
  | PyStr s => bool_decide (s ∈ pct_changes)
  | _ => false
  end.

Definition is_str (x : pyval) : bool := bool_decide (type_ x = str_).

(** The arguments of a fetch pass every check made before the request. *)
Definition validates (k : call) : bool :=
  match k with
  | Get_metadata => true
  | Get_lastdata p | Get_timeseries p => valid_pct p
  | Get_timeseries_range i e p => valid_pct p && is_str i && is_str e
  | _ => true
  end.

(** The [pct_change] argument of the three methods that take one. *)
Definition pct_change_of (k : call) : option pyval :=
  match k with
  | Get_lastdata p | Get_timeseries p | Get_timeseries_range _ _ p => Some p
  | _ => None
  end.

(** The invariant of the params mapping. *)
Definition params_inv (p : gmap string pyval) : Prop :=
  (p !! "locale" = Some (PyStr "en") ∨ p !! "locale" = Some (PyStr "es"))
  ∧ ∀ v, p !! "incremento" = Some v → valid_pct v = true.

(** What construction establishes and every method keeps. *)
Record wf (c : SIEBanxico) : Prop := mkWf {
  wf_token : type_ (token c) = str_;
  wf_series : type_ (series c) = str_;
  wf_url : __url c = PyStr base_url;
  wf_headers : ∃ t, __headers c = {[ "Bmx-Token" := PyStr t ]};
  wf_params : params_inv (__params c)
}.

(** [needle] occurs in [hay]. *)
Definition includes (hay needle : string) : Prop :=
  ∃ pre post, hay = pre +:+ needle +:+ post.

(** What follows the selector in the URL of a fetch whose dates are
    strings. *)
Definition suffix (k : call) : string :=
  match k with
  | Get_lastdata _ => "/datos/oportuno"
  | Get_timeseries _ => "/datos"
  | Get_timeseries_range (PyStr a) (PyStr b) _ => "/datos/" +:+ a +:+ "/" +:+ b
  | _ => ""
  end.

(** The value a fetch stores under [incremento]. *)
Definition pct_arg (k : call) : pyval :=
  match k with
  | Get_lastdata p | Get_timeseries p | Get_timeseries_range _ _ p => p
  | _ => PyNone
  end.

(** The request error of a fetch for a status code. *)
Definition request_error (k : call) (code : Z) : exn :=
  Exn RequestException
    ((match k with
      | Get_timeseries_range _ _ _ =>
          "Something go wrong with the request. Review the token, series id or date format."
      | _ => "Something go wrong with the request. Review the token or series id."
      end) +:+ nl +:+ "Status code: " +:+ pretty code).

(** What a fetch makes of the outcome of the transport. *)
Definition respond (k : call) (r : result Response) : result pyval :=
  match r with
  | Ok response =>
      if bool_decide (status_code response ≠ 200) then
        Raise (request_error k (status_code response))
      else json response
  | Raise e => Raise e
  end.

(** The object that a successful construction returns. *)
Definition constructed (tok sel lang : string) : SIEBanxico :=
  mkSIEBanxico (PyStr tok) (PyStr sel) (PyStr base_url)
    {[ "Bmx-Token" := PyStr tok ]} {[ "locale" := PyStr lang ]} (PyStr lang).

(** The selector that an [id_series] argument stands for, when it is a
    string or a list that [join] accepts. *)
Definition selector (id_series : pyval) : option string :=
  match id_series with
  | PyStr s => Some s
  | PyList items =>
      match str_join "," items with Ok s => Some s | Raise _ => None end
  | _ => None
  end.

(** ** Sample transports and objects *)

Definition sample_body : pyval := PyDict [("bmx", PyDict [("series", PyList [])])].

(** A mocked transport that answers every request with a fixed status. *)
Definition mock (code : Z) : list Request → Request → result Response :=
  λ _ _, Ok (mkResponse code (Ok sample_body)).

Definition sample : SIEBanxico := constructed "old" "SF43718" "en".

(** The state after a sequence of calls, each one made whether the one
    before it returned or raised (a caller that catches every exception). *)
Definition exec (transport : list Request → Request → result Response)
    (ks : list call) (st : State) : State :=
  foldl (λ st k, (invoke transport k st).2) st ks.

(** A transport that cannot reach the server. *)
Definition down : list Request → Request → result Response :=
  λ _ _, Raise (Exn ConnectionError "Max retries exceeded").

(** ** Equations of the primitives *)

Ltac monad_unfold :=
  unfold set_attr_token, set_attr_series, set_attr_url, set_attr_headers,
    set_attr_params, set_attr_language, params_setitem, returning_None,
    mbind, M_bind, mret, M_ret, raise, lift, get_self, put_self in *.

Ltac simp_obj :=
  unfold with_token, with_series, with_url, with_headers, with_params,
    with_language, constructed in *;
  cbn [self sent token series __url __headers __params __language
       req_url req_headers req_params fst snd] in *.

Lemma string_app_assoc (a b c : string) : (a +:+ b) +:+ c = a +:+ b +:+ c.
Proof.
  induction a as [|x a IH]; [done|].
  change (String x ((a +:+ b) +:+ c) = String x (a +:+ b +:+ c)). by rewrite IH.
Qed.

Lemma string_app_nil_r (s : string) : s +:+ "" = s.
Proof.
  induction s as [|x s IH]; [done|].
  change (String x (s +:+ "") = String x s). by rewrite IH.
Qed.

Lemma includes_suffix (pre s : string) : includes (pre +:+ s) s.
Proof. exists pre, "". by rewrite string_app_nil_r. Qed.

Lemma join_from_strings i sep ids :
  join_from i sep (PyStr <$> ids) = Ok (joined sep ids).
Proof.
  revert i. induction ids as [|s ids IH]; intros i; [done|].
  cbn [fmap list_fmap join_from]. fold (fmap (M:=list) PyStr ids).
  rewrite IH. destruct ids; done.
Qed.

Lemma join_from_not_str i sep items :
  (∃ x, x ∈ items ∧ type_ x ≠ str_) →
  ∃ e, join_from i sep items = Raise e ∧ exn_cls e = TypeError.
Proof.
  revert i. induction items as [|y items IH]; intros i [x [Hin Hx]].
  - by apply elem_of_nil in Hin.
  - destruct y; cbn [join_from]; try (eexists; split; [reflexivity|done]).
    apply elem_of_cons in Hin as [->|Hin]; [done|].
    destruct (IH (S i)) as [e [-> He]]; [by eauto|]. by eexists.
Qed.

Lemma str_join_strings sep ids :
  str_join sep (PyStr <$> ids) = Ok (joined sep ids).
Proof. apply join_from_strings. Qed.

Lemma str_join_not_str sep items :
  (∃ x, x ∈ items ∧ type_ x ≠ str_) →
  ∃ e, str_join sep items = Raise e ∧ exn_cls e = TypeError.
Proof. apply join_from_not_str. Qed.

Lemma set_token_str s st :
  set_token (PyStr s) st = (Ok (), mkState (with_token (PyStr s) (self st)) (sent st)).
Proof. done. Qed.

Lemma set_token_not_str t st :
  type_ t ≠ str_ →
  ∃ e, set_token t st = (Raise e, st) ∧ exn_cls e = TypeError.
Proof. destruct t; try done; intros _; by eexists. Qed.

Lemma set_id_series_str s st :
  set_id_series (PyStr s) st
  = (Ok (), mkState (with_series (PyStr s) (self st)) (sent st)).
Proof. done. Qed.

Lemma set_id_series_list items st :
  set_id_series (PyList items) st
  = match str_join "," items with
    | Ok s => (Ok (), mkState (with_series (PyStr s) (self st)) (sent st))
    | Raise e => (Raise e, st)
    end.
Proof. done. Qed.

Lemma set_id_series_other x st :
  type_ x ≠ str_ → type_ x ≠ list_ →
  ∃ e, set_id_series x st = (Raise e, st) ∧ exn_cls e = TypeError.
Proof. destruct x; try done; intros _ _; by eexists. Qed.

Lemma append_id_series_list items st :
  append_id_series (PyList items) st
  = match str_join "," items with
    | Ok j =>
        match py_iadd (series (self st)) (PyStr ("," +:+ j)) with
        | Ok s => (Ok (), mkState (with_series s (self st)) (sent st))
        | Raise e => (Raise e, st)
        end
    | Raise e => (Raise e, st)
    end.
Proof.
  unfold append_id_series. monad_unfold. by destruct (str_join "," items).
Qed.

Lemma append_id_series_not_list x st :
  type_ x ≠ list_ →
  ∃ e, append_id_series x st = (Raise e, st) ∧ exn_cls e = TypeError.
Proof. destruct x; try done; intros _; by eexists. Qed.

Lemma set_pct_change_valid p st :
  valid_pct p = true →
  __set_pct_change p st
  = (Ok (), mkState (with_params (<["incremento" := p]> (__params (self st))) (self st))
                    (sent st)).
Proof.
  destruct p; try done. cbn [valid_pct]. intros H.
  unfold __set_pct_change. by rewrite H.
Qed.

Lemma set_pct_change_bad_str s st :
  s ∉ pct_changes →
  ∃ e, __set_pct_change (PyStr s) st = (Raise e, st) ∧ exn_cls e = ValueError.
Proof.
  intros H. unfold __set_pct_change. rewrite bool_decide_eq_false_2 by done.
  by eexists.
Qed.

Lemma set_pct_change_not_str p st :
  type_ p ≠ str_ → p ≠ PyNone →
  ∃ e, __set_pct_change p st = (Raise e, st) ∧ exn_cls e = TypeError.
Proof. destruct p; try done; intros _ _; by eexists. Qed.

Lemma set_pct_change_invalid p st :
  valid_pct p = false →
  ∃ e, __set_pct_change p st = (Raise e, st)
       ∧ (exn_cls e = TypeError ∨ exn_cls e = ValueError).
Proof.
  intros H. destruct p; try done; try (eexists; split; [reflexivity|by left]).
  cbn [valid_pct] in H. apply bool_decide_eq_false in H.
  destruct (set_pct_change_bad_str s st H) as [e [? ?]]. eauto.
Qed.

Lemma join_from_raise i sep items e :
  join_from i sep items = Raise e → exn_cls e = TypeError.
Proof.
  revert i. induction items as [|y items IH]; intros i; [done|].
  destruct y; cbn [join_from]; try (by intros [= <-]).
  destruct (join_from (S i) sep items) eqn:E; [done|].
  intros [= <-]. eauto.
Qed.

Lemma set_id_series_eq i st :
  match selector i with
  | Some sel =>
      set_id_series i st
      = (Ok (), mkState (with_series (PyStr sel) (self st)) (sent st))
  | None => ∃ e, set_id_series i st = (Raise e, st) ∧ exn_cls e = TypeError
  end.
Proof.
  destruct i; cbn [selector]; try by eexists.
  rewrite set_id_series_list. destruct (str_join "," items) eqn:E; [done|].
  eexists; split; [done|]. by eapply join_from_raise.
Qed.

Lemma set_language_ok l st :
  __language (self st) = PyStr l → l ∈ ["en"; "es"] →
  __set_language st
  = (Ok (), mkState (with_params (<["locale" := PyStr l]> (__params (self st))) (self st))
                    (sent st)).
Proof.
  intros Hl Hin. unfold __set_language. monad_unfold. rewrite Hl.
  assert (bool_decide (l = "en") || bool_decide (l = "es") = true) as ->; [|done].
  set_unfold. destruct Hin as [->| [->|[]]]; done.
Qed.

Lemma set_language_bad_str l st :
  __language (self st) = PyStr l → l ∉ ["en"; "es"] →
  ∃ e, __set_language st = (Raise e, st) ∧ exn_cls e = ValueError.
Proof.
  intros Hl Hin. unfold __set_language. monad_unfold. rewrite Hl.
  assert (bool_decide (l = "en") || bool_decide (l = "es") = false) as ->.
  { apply orb_false_iff. split; apply bool_decide_eq_false; set_solver. }
  by eexists.
Qed.

Lemma set_language_not_str st :
  type_ (__language (self st)) ≠ str_ →
  ∃ e, __set_language st = (Raise e, st) ∧ exn_cls e = TypeError.
Proof.
  intros Hl. unfold __set_language. monad_unfold.
  destruct (__language (self st)); try done; by eexists.
Qed.

(** *** Construction *)

(** [__init__] up to the call of [__set_language]. *)
Lemma init_prefix tok i sel l st :
  selector i = Some sel →
  __init__ (PyStr tok) i l st
  = __set_language
      (mkState (mkSIEBanxico (PyStr tok) (PyStr sel) (PyStr base_url)
                  {[ "Bmx-Token" := PyStr tok ]} ∅ l) (sent st)).
Proof.
  intros Hi. unfold __init__. monad_unfold. rewrite set_token_str.
  pose proof (set_id_series_eq i) as Hs. rewrite Hi in Hs. rewrite Hs.
  by simp_obj.
Qed.

Lemma new_ok tok i sel lang :
  selector i = Some sel → lang ∈ ["en"; "es"] →
  SIEBanxico_new (PyStr tok) i (PyStr lang) = Ok (constructed tok sel lang).
Proof.
  intros Hi Hl. unfold SIEBanxico_new. rewrite (init_prefix _ _ sel) by done.
  rewrite (set_language_ok lang) by done. simp_obj. by rewrite insert_empty.
Qed.

Lemma new_bad_token t i l :
  type_ t ≠ str_ → raises (SIEBanxico_new t i l) TypeError.
Proof.
  intros Ht. unfold SIEBanxico_new, __init__. monad_unfold.
  edestruct (set_token_not_str t) as [e [He Hc]]; [done|].
  by rewrite He.
Qed.

Lemma new_bad_id_series t i l :
  selector i = None → raises (SIEBanxico_new t i l) TypeError.
Proof.
  intros Hi. destruct (decide (type_ t = str_)) as [Ht|Ht];
    [|by apply new_bad_token].
  destruct t; try done. unfold SIEBanxico_new, __init__. monad_unfold.
  rewrite set_token_str. pose proof (set_id_series_eq i) as Hs.
  rewrite Hi in Hs.
  edestruct Hs as [e [-> He]]. done.
Qed.

Lemma new_bad_language_type tok i sel l :
  selector i = Some sel → type_ l ≠ str_ →
  raises (SIEBanxico_new (PyStr tok) i l) TypeError.
Proof.
  intros Hi Hl. unfold SIEBanxico_new. rewrite (init_prefix _ _ sel) by done.
  edestruct set_language_not_str as [e [-> He]]; done.
Qed.

Lemma new_bad_language tok i sel lang :
  selector i = Some sel → lang ∉ ["en"; "es"] →
  raises (SIEBanxico_new (PyStr tok) i (PyStr lang)) ValueError.
Proof.
  intros Hi Hl. unfold SIEBanxico_new. rewrite (init_prefix _ _ sel) by done.
  edestruct (set_language_bad_str lang) as [e [-> He]]; done.
Qed.

Lemma new_inv t i l c :
  SIEBanxico_new t i l = Ok c →
  ∃ tok sel lang, t = PyStr tok ∧ selector i = Some sel ∧ l = PyStr lang
    ∧ lang ∈ ["en"; "es"] ∧ c = constructed tok sel lang.
Proof.
  intros H.
  destruct (decide (type_ t = str_)) as [Ht|Ht]; cycle 1.
  { apply (new_bad_token t i l) in Ht. by rewrite H in Ht. }
  destruct t as [| | |tok| |]; try done.
  destruct (selector i) as [sel|] eqn:Hi; cycle 1.
  { apply (new_bad_id_series (PyStr tok) i l) in Hi. by rewrite H in Hi. }
  destruct (decide (type_ l = str_)) as [Hl|Hl]; cycle 1.
  { apply (new_bad_language_type tok i sel l) in Hl; [|done]. by rewrite H in Hl. }
  destruct l as [| | |lang| |]; try done.
  destruct (decide (lang ∈ ["en"; "es"])) as [Hin|Hin]; cycle 1.
  { apply (new_bad_language tok i sel lang) in Hin; [|done]. by rewrite H in Hin. }
  rewrite (new_ok tok i sel lang) in H by done.
  exists tok, sel, lang. by injection H as <-.
Qed.

(** *** The fetch methods *)

Section Fetch.

Variable transport : list Request → Request → result Response.

(** A fetch whose arguments pass the checks stores [incremento], hands
    one request to the transport and answers from its outcome. *)
Lemma fetch_validates k st sel :
  is_fetch k = true → validates k = true →
  __url (self st) = PyStr base_url → series (self st) = PyStr sel →
  invoke transport k st
  = let c' := with_params (<["incremento" := pct_arg k]> (__params (self st)))
                          (self st) in
    let rq := mkRequest (PyStr (base_url +:+ sel +:+ suffix k))
                        (__headers (self st)) (__params c') in
    (respond k (transport (sent st) rq), mkState c' (sent st ++ [rq])).
Proof.
  intros Hf Hv Hu Hs.
  destruct k as [| | | |p|p|i e p]; try done;
    cbn [invoke validates pct_arg suffix] in *.
  - unfold get_metadata. monad_unfold.
    rewrite set_pct_change_valid by done. simp_obj. rewrite Hu, Hs.
    cbn [py_add]. unfold requests_get. simp_obj.
    rewrite string_app_nil_r.
    destruct (transport _ _) as [resp|err]; [|done].
    unfold respond, request_error. by case_bool_decide.
  - unfold get_lastdata. monad_unfold.
    rewrite set_pct_change_valid by done. simp_obj. rewrite Hu, Hs.
    cbn [py_add]. unfold requests_get. simp_obj.
    rewrite string_app_assoc.
    destruct (transport _ _) as [resp|err]; [|done].
    unfold respond, request_error. by case_bool_decide.
  - unfold get_timeseries. monad_unfold.
    rewrite set_pct_change_valid by done. simp_obj. rewrite Hu, Hs.
    cbn [py_add]. unfold requests_get. simp_obj.
    rewrite string_app_assoc.
    destruct (transport _ _) as [resp|err]; [|done].
    unfold respond, request_error. by case_bool_decide.
  - apply andb_prop in Hv as [Hv He]. apply andb_prop in Hv as [Hp Hi].
    destruct i as [| | |a| |]; try done. destruct e as [| | |b| |]; try done.
    unfold get_timeseries_range. monad_unfold.
    rewrite set_pct_change_valid by done.
    cbn [type_]. rewrite bool_decide_eq_false_2 by (by intros []).
    cbn [orb]. simp_obj. rewrite Hu, Hs.
    cbn [py_add]. unfold requests_get. simp_obj.
    rewrite !string_app_assoc.
    destruct (transport _ _) as [resp|err]; [|done].
    unfold respond, request_error. by case_bool_decide.
Qed.

(** A fetch whose [pct_change] fails the check raises at once. *)
Lemma fetch_invalid_pct k p st :
  pct_change_of k = Some p → valid_pct p = false →
  ∃ e, invoke transport k st = (Raise e, st)
       ∧ (exn_cls e = TypeError ∨ exn_cls e = ValueError)
       ∧ (type_ p = str_ → exn_cls e = ValueError)
       ∧ (type_ p ≠ str_ → exn_cls e = TypeError).
Proof.
  intros Hk Hp.
  assert (∃ e, __set_pct_change p st = (Raise e, st)
               ∧ (exn_cls e = TypeError ∨ exn_cls e = ValueError)
               ∧ (type_ p = str_ → exn_cls e = ValueError)
               ∧ (type_ p ≠ str_ → exn_cls e = TypeError)) as [e [He Hc]].
  { destruct p as [| | |s| |]; try done;
      try (eexists; split; [reflexivity|]; split; [by left|by split]).
    cbn [valid_pct] in Hp. apply bool_decide_eq_false in Hp.
    destruct (set_pct_change_bad_str s st Hp) as [e [? ?]].
    exists e. split; [done|]. split; [by right|by split]. }
  exists e. split; [|done].
  destruct k; try done; injection Hk as ->; cbn [invoke];
    unfold get_lastdata, get_timeseries, get_timeseries_range;
    monad_unfold; by rewrite He.
Qed.

(** [get_timeseries_range] with a date that is not a string: the
    [pct_change] is stored, then the date check raises. *)
Lemma range_invalid_date i e p st :
  valid_pct p = true → is_str i && is_str e = false →
  ∃ err, invoke transport (Get_timeseries_range i e p) st
         = (Raise err,
            mkState (with_params (<["incremento" := p]> (__params (self st)))
                                 (self st)) (sent st))
         ∧ exn_cls err = TypeError.
Proof.
  intros Hp Hd. cbn [invoke]. unfold get_timeseries_range. monad_unfold.
  rewrite set_pct_change_valid by done.
  assert (bool_decide (type_ i ≠ str_) || bool_decide (type_ e ≠ str_) = true)
    as ->.
  { unfold is_str in Hd. apply andb_false_iff in Hd as [Hd|Hd];
      apply bool_decide_eq_false in Hd; apply orb_true_iff;
      [left|right]; by apply bool_decide_eq_true. }
  by eexists.
Qed.

End Fetch.

(** *** What a call may change *)

Section Frame.

Variable transport : list Request → Request → result Response.

(** A fetch either leaves the state as it was, or stores [incremento]
    and hands at most one request to the transport, built from the
    headers of the object and the updated params. *)
Lemma fetch_frame k st r st' :
  is_fetch k = true → invoke transport k st = (r, st') →
  (valid_pct (pct_arg k) = false ∧ st' = st)
  ∨ (valid_pct (pct_arg k) = true
     ∧ self st'
       = with_params (<["incremento" := pct_arg k]> (__params (self st))) (self st)
     ∧ (sent st' = sent st
        ∨ ∃ u, sent st'
               = sent st ++ [mkRequest u (__headers (self st))
                               (<["incremento" := pct_arg k]> (__params (self st)))])).
Proof.
  intros Hf H.
  destruct (valid_pct (pct_arg k)) eqn:Hp; cycle 1.
  { left. split; [done|]. destruct k; cbn [pct_arg valid_pct] in Hp; try done;
      (edestruct (fetch_invalid_pct transport) as [e [He _]];
       [|exact Hp|rewrite He in H; by simplify_eq]); reflexivity. }
  right. split; [done|].
  destruct k as [| | | |p|p|i e p]; try done; cbn [invoke pct_arg] in *;
    unfold get_metadata, get_lastdata, get_timeseries, get_timeseries_range,
      requests_get in H;
    monad_unfold; rewrite set_pct_change_valid in H by done;
    repeat (case_match; simplify_eq); simp_obj; eauto.
Qed.

(** A mutator sends nothing and touches [token] or [series] only. *)
Lemma mutator_frame k st r st' :
  is_fetch k = false → invoke transport k st = (r, st') →
  sent st' = sent st
  ∧ (self st' = self st
     ∨ (∃ s, self st' = with_token (PyStr s) (self st))
     ∨ (∃ v, self st' = with_series v (self st)
             ∧ (type_ (series (self st)) = str_ → type_ v = str_))).
Proof.
  intros Hf H. destruct k as [t|i|i| | | |]; try done; cbn [invoke] in H;
    monad_unfold.
  - destruct (decide (type_ t = str_)) as [Ht|Ht].
    + destruct t; try done. rewrite set_token_str in H.
      simplify_eq. simp_obj. eauto.
    + edestruct (set_token_not_str t st) as [e [He _]]; [done|].
      rewrite He in H. simplify_eq. eauto.
  - pose proof (set_id_series_eq i st) as Hs.
    destruct (selector i) as [sel|].
    + rewrite Hs in H. simplify_eq. simp_obj. split; [done|].
      right; right. by exists (PyStr sel).
    + destruct Hs as [e [He _]]. rewrite He in H. simplify_eq. eauto.
  - destruct i; try (cbn in H; simplify_eq; by eauto).
    rewrite append_id_series_list in H.
    destruct (str_join "," items); [|simplify_eq; by eauto].
    destruct (py_iadd _ _) as [v|] eqn:Ha; simplify_eq; [|by eauto].
    simp_obj. split; [done|]. right; right. exists v.
    split; [done|].
    intros Hty. destruct (series (self st)); try done.
    cbn in Ha. by simplify_eq.
Qed.

Lemma invoke_headers k st :
  __headers (self (invoke transport k st).2) = __headers (self st).
Proof.
  destruct (invoke transport k st) as [r st'] eqn:H. cbn [snd].
  destruct (is_fetch k) eqn:Hf.
  - destruct (fetch_frame k st r st' Hf H) as [[_ ->]|(_ & -> & _)]; done.
  - destruct (mutator_frame k st r st' Hf H)
      as (_ & [->|[[s ->]|(v & -> & _)]]); done.
Qed.

Lemma invoke_params k st :
  __params (self (invoke transport k st).2) = __params (self st)
  ∨ ∃ p, valid_pct p = true
         ∧ __params (self (invoke transport k st).2)
           = <["incremento" := p]> (__params (self st)).
Proof.
  destruct (invoke transport k st) as [r st'] eqn:H. cbn [snd].
  destruct (is_fetch k) eqn:Hf.
  - destruct (fetch_frame k st r st' Hf H) as [[_ ->]|(Hp & -> & _)];
      [by left|right; eauto].
  - left. destruct (mutator_frame k st r st' Hf H)
      as (_ & [->|[[s ->]|(v & -> & _)]]); done.
Qed.

Lemma params_inv_insert p m :
  valid_pct p = true → params_inv m → params_inv (<["incremento" := p]> m).
Proof.
  intros Hp [Hl Hi]. split.
  - by rewrite lookup_insert_ne.
  - intros v. rewrite lookup_insert_eq. by intros [= <-].
Qed.

Lemma invoke_params_inv k st :
  params_inv (__params (self st)) →
  params_inv (__params (self (invoke transport k st).2)).
Proof.
  intros Hinv. destruct (invoke_params k st) as [->|(p & Hp & ->)];
    [done|by apply params_inv_insert].
Qed.

Lemma constructed_wf tok sel lang :
  lang ∈ ["en"; "es"] → wf (constructed tok sel lang).
Proof.
  intros Hl. split; simp_obj; try done; [by eexists|]. split.
  - rewrite lookup_singleton_eq.
    apply elem_of_cons in Hl as [->|Hl]; [by left|].
    apply list_elem_of_singleton in Hl as ->. by right.
  - intros v. by rewrite lookup_singleton_ne.
Qed.

Lemma new_wf t i l c : SIEBanxico_new t i l = Ok c → wf c.
Proof.
  intros H. apply new_inv in H as (tok & sel & lang & _ & _ & _ & Hl & ->).
  by apply constructed_wf.
Qed.

Lemma invoke_wf k st : wf (self st) → wf (self (invoke transport k st).2).
Proof.
  intros Hwf. pose proof (invoke_params_inv k st (wf_params _ Hwf)) as Hp.
  pose proof (invoke_headers k st) as Hh.
  destruct (invoke transport k st) as [r st'] eqn:H. cbn [snd] in *.
  destruct Hwf as [Ht Hs Hu Hhd _].
  destruct (is_fetch k) eqn:Hf.
  - destruct (fetch_frame k st r st' Hf H) as [[_ ->]|(_ & He & _)];
      [by split|].
    rewrite He in *. by split; simp_obj.
  - destruct (mutator_frame k st r st' Hf H)
      as (_ & [He|[[s He]|(v & He & Hv)]]);
      rewrite He in *; split; simp_obj; auto.
Qed.

Lemma reachable_wf st : reachable transport st → wf (self st).
Proof.
  induction 1 as [t i l c H|k st _ IH]; [by eapply new_wf|by apply invoke_wf].
Qed.

End Frame.

(** ** The series selector *)

(** C5.  [set_id_series] on a list of strings stores the strings joined
    with [","] in input order, and on a single string stores it as it is;
    construction with either argument stores the same selector.  An
    argument that is neither a string nor a list raises [TypeError] and
    leaves the state, hence the stored selector, as it was; construction
    with it raises [TypeError]. *)
Theorem C5_set_id_series_selector :
  (∀ ids st,
     set_id_series (PyList (PyStr <$> ids)) st
     = (Ok (), mkState (with_series (PyStr (joined "," ids)) (self st)) (sent st)))
  ∧ (∀ s st,
       set_id_series (PyStr s) st
       = (Ok (), mkState (with_series (PyStr s) (self st)) (sent st)))
  ∧ (∀ x st, type_ x ≠ str_ → type_ x ≠ list_ →
       ∃ e, set_id_series x st = (Raise e, st) ∧ exn_cls e = TypeError)
  ∧ (∀ t ids l c,
       SIEBanxico_new t (PyList (PyStr <$> ids)) l = Ok c →
       series c = PyStr (joined "," ids))
  ∧ (∀ t s l c, SIEBanxico_new t (PyStr s) l = Ok c → series c = PyStr s)
  ∧ (∀ t x l, type_ x ≠ str_ → type_ x ≠ list_ →
       raises (SIEBanxico_new t x l) TypeError).
Proof.
  split_and!.
  - intros ids st. rewrite set_id_series_list. by rewrite str_join_strings.
  - done.
  - apply set_id_series_other.
  - intros t ids l c H.
    apply new_inv in H as (tok & sel & lang & _ & Hs & _ & _ & ->).
    cbn [selector] in Hs. rewrite str_join_strings in Hs. by simplify_eq.
  - intros t s l c H.
    apply new_inv in H as (tok & sel & lang & _ & Hs & _ & _ & ->).
    cbn [selector] in Hs. by simplify_eq.
  - intros t x l Hs Hl. apply new_bad_id_series. by destruct x.
Qed.

Lemma C5_set_id_series_selector_witness :
  series (constructed "t" "SF43718,SF43787" "es") = PyStr "SF43718,SF43787"
  ∧ series (constructed "t" "SF43718-SF43720" "en") = PyStr "SF43718-SF43720"
  ∧ (∃ e, set_id_series (PyInt 7) (mkState sample []) = (Raise e, mkState sample [])
          ∧ exn_cls e = TypeError)
  ∧ raises (SIEBanxico_new (PyStr "t") (PyInt 7) (PyStr "en")) TypeError.
Proof.
  destruct C5_set_id_series_selector as (_ & _ & H3 & H4 & H5 & H6).
  split; [|split; [|split]].
  - apply (H4 (PyStr "t") ["SF43718"; "SF43787"] (PyStr "es")). reflexivity.
  - apply (H5 (PyStr "t") "SF43718-SF43720" (PyStr "en")). reflexivity.
  - apply (H3 (PyInt 7)); discriminate.
  - apply (H6 (PyStr "t") (PyInt 7) (PyStr "en")); discriminate.
Defined.

(** C6.  [append_id_series] requires a list: every other argument, a bare
    string included, raises [TypeError] and changes nothing.  On a list of
    strings it replaces the selector with the old selector, then [","],
    then the ids joined with [","].  Appending [["B"]] after setting
    [["A"]] gives the selector ["A,B"]. *)
Theorem C6_append_id_series :
  (∀ x st, type_ x ≠ list_ →
     ∃ e, append_id_series x st = (Raise e, st) ∧ exn_cls e = TypeError)
  ∧ (∀ old ids st, series (self st) = PyStr old →
       append_id_series (PyList (PyStr <$> ids)) st
       = (Ok (), mkState (with_series (PyStr (old +:+ "," +:+ joined "," ids))
                                      (self st)) (sent st)))
  ∧ (∀ transport st,
       ∃ st', run transport [Set_id_series (PyList [PyStr "A"]);
                             Append_id_series (PyList [PyStr "B"])] st
              = (Ok [PyNone; PyNone], st')
              ∧ series (self st') = PyStr "A,B").
Proof.
  split_and!.
  - apply append_id_series_not_list.
  - intros old ids st Hs. rewrite append_id_series_list, str_join_strings, Hs.
    done.
  - intros transport st. eexists. split; reflexivity.
Qed.

Lemma C6_append_id_series_witness :
  (∃ e, append_id_series (PyStr "B") (mkState sample []) = (Raise e, mkState sample [])
        ∧ exn_cls e = TypeError)
  ∧ append_id_series (PyList (PyStr <$> ["SF43787"; "SF43784"])) (mkState sample [])
    = (Ok (), mkState (with_series (PyStr "SF43718,SF43787,SF43784") sample) []).
Proof.
  destruct C6_append_id_series as (H1 & H2 & _). split.
  - apply (H1 (PyStr "B")). discriminate.
  - apply (H2 "SF43718" ["SF43787"; "SF43784"] (mkState sample [])). reflexivity.
Defined.

(** C10.  A list with at least one element that is not a string makes
    [set_id_series] and [append_id_series] raise [TypeError] (it is the
    join that fails), and both leave the state, hence the stored selector,
    as it was. *)
Theorem C10_list_with_non_string items st :
  (∃ x, x ∈ items ∧ type_ x ≠ str_) →
  (∃ e, set_id_series (PyList items) st = (Raise e, st) ∧ exn_cls e = TypeError)
  ∧ (∃ e, append_id_series (PyList items) st = (Raise e, st)
          ∧ exn_cls e = TypeError).
Proof.
  intros H. destruct (str_join_not_str "," items H) as [e [He Hc]].
  split; exists e.
  - by rewrite set_id_series_list, He.
  - by rewrite append_id_series_list, He.
Qed.

Lemma C10_list_with_non_string_witness :
  (∃ e, set_id_series (PyList [PyStr "A"; PyInt 3]) (mkState sample [])
        = (Raise e, mkState sample []) ∧ exn_cls e = TypeError)
  ∧ (∃ e, append_id_series (PyList [PyStr "A"; PyInt 3]) (mkState sample [])
          = (Raise e, mkState sample []) ∧ exn_cls e = TypeError).
Proof.
  apply (C10_list_with_non_string [PyStr "A"; PyInt 3] (mkState sample [])).
  exists (PyInt 3). split; [|discriminate].
  apply list_elem_of_In. simpl. right. left. reflexivity.
Defined.

(** ** Language and params *)

(** C7, as stated, fails: a language that is not a string makes the
    construction raise [TypeError], not [ValueError]. *)
Lemma C7_language_not_str_counterexample :
  raises (SIEBanxico_new (PyStr "t") (PyList [PyStr "SF43718"]) (PyInt 5)) TypeError
  ∧ ¬ raises (SIEBanxico_new (PyStr "t") (PyList [PyStr "SF43718"]) (PyInt 5))
        ValueError.
Proof. split; [reflexivity|discriminate]. Qed.

(** C7, amended.  With a token and a series argument that pass their
    checks, construction returns exactly when the language is ["en"] or
    ["es"], and then the params mapping holds it under [locale] (and
    nothing else); every other string raises [ValueError], ["fr"] for one;
    a language that is not a string raises [TypeError]. *)
Theorem C7_language_checked tok i sel l :
  selector i = Some sel →
  (returned (SIEBanxico_new (PyStr tok) i l) ↔ l = PyStr "en" ∨ l = PyStr "es")
  ∧ (∀ c, SIEBanxico_new (PyStr tok) i l = Ok c →
       __params c !! "locale" = Some l ∧ __params c = {[ "locale" := l ]})
  ∧ (∀ lang, l = PyStr lang → lang ∉ ["en"; "es"] →
       raises (SIEBanxico_new (PyStr tok) i l) ValueError)
  ∧ (type_ l ≠ str_ → raises (SIEBanxico_new (PyStr tok) i l) TypeError)
  ∧ raises (SIEBanxico_new (PyStr tok) i (PyStr "fr")) ValueError.
Proof.
  intros Hi. split_and!.
  - split.
    + destruct (SIEBanxico_new (PyStr tok) i l) as [c|] eqn:H; [intros _|done].
      apply new_inv in H as (_ & _ & lang & _ & _ & -> & Hl & _).
      apply elem_of_cons in Hl as [->|Hl]; [by left|].
      apply list_elem_of_singleton in Hl as ->. by right.
    + intros [->| ->]; rewrite (new_ok tok i sel); try done; set_solver.
  - intros c H.
    apply new_inv in H as (tok' & sel' & lang & _ & _ & -> & _ & ->).
    simp_obj. by rewrite lookup_singleton_eq.
  - intros lang -> Hl. by apply (new_bad_language tok i sel).
  - by apply new_bad_language_type with sel.
  - apply (new_bad_language tok i sel); [done|].
    intros H. apply elem_of_cons in H as [H|H]; [done|].
    by apply list_elem_of_singleton in H.
Qed.

Lemma C7_language_checked_witness :
  raises (SIEBanxico_new (PyStr "t") (PyList [PyStr "A"; PyStr "B"]) (PyStr "fr"))
    ValueError
  ∧ raises (SIEBanxico_new (PyStr "t") (PyList [PyStr "A"; PyStr "B"]) PyNone)
      TypeError
  ∧ __params (constructed "t" "A,B" "es") !! "locale" = Some (PyStr "es").
Proof.
  split; [|split].
  - apply (C7_language_checked "t" (PyList [PyStr "A"; PyStr "B"]) "A,B" (PyStr "fr")).
    reflexivity.
  - apply (C7_language_checked "t" (PyList [PyStr "A"; PyStr "B"]) "A,B" PyNone).
    + reflexivity.
    + discriminate.
  - apply (C7_language_checked "t" (PyList [PyStr "A"; PyStr "B"]) "A,B" (PyStr "es")).
    + reflexivity.
    + reflexivity.
Defined.

(** C9.  After every successful construction the params mapping holds
    ["en"] or ["es"] under [locale] and, when [incremento] is present,
    [None] or one of the three literals under it; every call of a public
    method that returns normally from a state where this holds leaves it
    holding. *)
Theorem C9_params_invariant :
  (∀ t i l c, SIEBanxico_new t i l = Ok c → params_inv (__params c))
  ∧ (∀ transport k st v st',
       params_inv (__params (self st)) →
       invoke transport k st = (Ok v, st') →
       params_inv (__params (self st'))).
Proof.
  split.
  - intros t i l c H. by apply new_wf in H as [].
  - intros transport k st v st' Hinv H.
    pose proof (invoke_params_inv transport k st Hinv) as Hp.
    by rewrite H in Hp.
Qed.

Lemma C9_params_invariant_witness :
  params_inv (__params (constructed "t" "SF43718" "en"))
  ∧ params_inv (__params (self (invoke (mock 200) (Get_lastdata (PyStr "PorcAnual"))
                                  (mkState (constructed "t" "SF43718" "en") [])).2)).
Proof.
  destruct C9_params_invariant as [H1 H2].
  assert (params_inv (__params (constructed "t" "SF43718" "en"))) as Hc.
  { apply (H1 (PyStr "t") (PyStr "SF43718") (PyStr "en")). reflexivity. }
  split; [exact Hc|].
  apply (H2 (mock 200) (Get_lastdata (PyStr "PorcAnual"))
            (mkState (constructed "t" "SF43718" "en") []) sample_body).
  - exact Hc.
  - reflexivity.
Defined.

(** ** The fetch methods *)

Lemma pct_change_of_fetch k p :
  pct_change_of k = Some p → is_fetch k = true ∧ pct_arg k = p.
Proof. destruct k; try done; by intros [= ->]. Qed.

Lemma request_error_includes k code :
  exn_cls (request_error k code) = RequestException
  ∧ includes (exn_msg (request_error k code)) (pretty code).
Proof.
  split; [done|]. unfold request_error. cbn [exn_msg].
  rewrite <- !string_app_assoc. apply includes_suffix.
Qed.

Lemma wf_fetch_validates transport k st :
  wf (self st) → is_fetch k = true → validates k = true →
  ∃ sel, series (self st) = PyStr sel
    ∧ invoke transport k st
      = let c' := with_params (<["incremento" := pct_arg k]> (__params (self st)))
                              (self st) in
        let rq := mkRequest (PyStr (base_url +:+ sel +:+ suffix k))
                            (__headers (self st)) (__params c') in
        (respond k (transport (sent st) rq), mkState c' (sent st ++ [rq])).
Proof.
  intros [_ Hs Hu _ _] Hf Hv.
  destruct (series (self st)) as [| | |sel| |] eqn:Hsel; try done.
  exists sel. split; [done|]. by apply fetch_validates.
Qed.

(** C3.  For [get_lastdata], [get_timeseries] and [get_timeseries_range]:
    a [pct_change] that is [None] or one of the three literals is written
    under [incremento], whatever the mapping held there, and the request
    that the call hands to the transport carries the updated mapping; on
    an object as construction leaves it, with dates that are strings, that
    request is made.  Every other string raises [ValueError] and every
    other value that is not a string raises [TypeError], with nothing sent
    and nothing written. *)
Theorem C3_pct_change_checked transport k p st :
  pct_change_of k = Some p →
  (valid_pct p = true →
     __params (self (invoke transport k st).2)
     = <["incremento" := p]> (__params (self st))
     ∧ __params (self (invoke transport k st).2) !! "incremento" = Some p
     ∧ (∃ new, sent (invoke transport k st).2 = sent st ++ new
               ∧ ∀ rq, rq ∈ new →
                   req_params rq = <["incremento" := p]> (__params (self st)))
     ∧ (wf (self st) → validates k = true →
        ∃ rq, sent (invoke transport k st).2 = sent st ++ [rq]
              ∧ req_params rq = <["incremento" := p]> (__params (self st))))
  ∧ (∀ s, p = PyStr s → s ∉ pct_changes →
       raises (invoke transport k st).1 ValueError
       ∧ (invoke transport k st).2 = st)
  ∧ (type_ p ≠ str_ → p ≠ PyNone →
       raises (invoke transport k st).1 TypeError
       ∧ (invoke transport k st).2 = st).
Proof.
  intros Hk. destruct (pct_change_of_fetch k p Hk) as [Hf Hpa]. split_and!.
  - intros Hp. destruct (invoke transport k st) as [r st'] eqn:H. cbn [snd].
    destruct (fetch_frame transport k st r st' Hf H)
      as [[Hp' _]|(_ & He & Hsent)]; [congruence|].
    rewrite Hpa in He, Hsent. rewrite He. simp_obj. split_and!.
    + done.
    + by rewrite lookup_insert_eq.
    + destruct Hsent as [Hsent|[u Hsent]]; rewrite Hsent.
      * exists []. split; [by rewrite app_nil_r|]. intros rq Hin.
        by apply elem_of_nil in Hin.
      * eexists. split; [done|]. intros rq Hin.
        by apply list_elem_of_singleton in Hin as ->.
    + intros Hwf Hv.
      destruct (wf_fetch_validates transport k st Hwf Hf Hv) as [sel [_ Hi]].
      rewrite Hi in H. cbn zeta in H. simplify_eq. simp_obj.
      by eexists.
  - intros s -> Hs.
    destruct (fetch_invalid_pct transport k (PyStr s) st Hk)
      as (e & -> & _ & He & _); [by apply bool_decide_eq_false|].
    split; [by apply He|done].
  - intros Ht Hn.
    destruct (fetch_invalid_pct transport k p st Hk)
      as (e & -> & _ & _ & He); [by destruct p|].
    split; [by apply He|done].
Qed.

Lemma C3_pct_change_checked_witness :
  __params (self (invoke (mock 200) (Get_timeseries (PyStr "PorcObsAnt"))
                    (mkState sample [])).2) !! "incremento"
  = Some (PyStr "PorcObsAnt")
  ∧ raises (invoke (mock 200) (Get_timeseries (PyStr "bogus")) (mkState sample [])).1
      ValueError
  ∧ raises (invoke (mock 200) (Get_timeseries (PyInt 1)) (mkState sample [])).1
      TypeError.
Proof.
  split; [|split].
  - apply (C3_pct_change_checked (mock 200) (Get_timeseries (PyStr "PorcObsAnt"))
             (PyStr "PorcObsAnt") (mkState sample [])); reflexivity.
  - apply (C3_pct_change_checked (mock 200) (Get_timeseries (PyStr "bogus"))
             (PyStr "bogus") (mkState sample [])) with "bogus".
    + reflexivity.
    + reflexivity.
    + apply (bool_decide_unpack _). vm_compute. exact I.
  - apply (C3_pct_change_checked (mock 200) (Get_timeseries (PyInt 1))
             (PyInt 1) (mkState sample [])).
    + reflexivity.
    + discriminate.
    + discriminate.
Defined.

(** C8.  In every state a program can reach, each fetch whose arguments
    pass the checks hands the transport one request, whose URL is the
    fixed base URL, then the current selector, then nothing
    ([get_metadata]), ["/datos/oportuno"] ([get_lastdata]), ["/datos"]
    ([get_timeseries]) or ["/datos/"], the initial date, ["/"] and the
    final date ([get_timeseries_range]).  [get_timeseries_range] with a
    date that is not a string sends nothing, and once its [pct_change] has
    passed the check it raises [TypeError]. *)
Theorem C8_request_urls transport st sel :
  reachable transport st → series (self st) = PyStr sel →
  base_url = "https://www.banxico.org.mx/SieAPIRest/service/v1/series/"
  ∧ (∃ rq, sent (get_metadata transport st).2 = sent st ++ [rq]
           ∧ req_url rq = PyStr (base_url +:+ sel))
  ∧ (∀ p, valid_pct p = true →
       ∃ rq, sent (get_lastdata transport p st).2 = sent st ++ [rq]
             ∧ req_url rq = PyStr (base_url +:+ sel +:+ "/datos/oportuno"))
  ∧ (∀ p, valid_pct p = true →
       ∃ rq, sent (get_timeseries transport p st).2 = sent st ++ [rq]
             ∧ req_url rq = PyStr (base_url +:+ sel +:+ "/datos"))
  ∧ (∀ a b p, valid_pct p = true →
       ∃ rq, sent (get_timeseries_range transport (PyStr a) (PyStr b) p st).2
             = sent st ++ [rq]
             ∧ req_url rq
               = PyStr (base_url +:+ sel +:+ "/datos/" +:+ a +:+ "/" +:+ b))
  ∧ (∀ i e p, is_str i && is_str e = false →
       sent (get_timeseries_range transport i e p st).2 = sent st
       ∧ ¬ returned (get_timeseries_range transport i e p st).1
       ∧ (valid_pct p = true →
            raises (get_timeseries_range transport i e p st).1 TypeError)).
Proof.
  intros Hr Hs. apply reachable_wf in Hr. destruct Hr as [_ _ Hu _ _].
  split_and!.
  - done.
  - pose proof (fetch_validates transport Get_metadata st sel) as H.
    cbn [invoke suffix] in H. rewrite H by done. cbn zeta. simp_obj.
    eexists. split; [done|]. by rewrite string_app_nil_r.
  - intros p Hp.
    pose proof (fetch_validates transport (Get_lastdata p) st sel) as H.
    cbn [invoke suffix] in H. rewrite H by done. cbn zeta. simp_obj.
    by eexists.
  - intros p Hp.
    pose proof (fetch_validates transport (Get_timeseries p) st sel) as H.
    cbn [invoke suffix] in H. rewrite H by done. cbn zeta. simp_obj.
    by eexists.
  - intros a b p Hp.
    pose proof (fetch_validates transport
                  (Get_timeseries_range (PyStr a) (PyStr b) p) st sel) as H.
    cbn [invoke suffix] in H. rewrite H; try done; cycle 1.
    { cbn [validates]. by rewrite Hp. }
    cbn zeta. simp_obj. by eexists.
  - intros i e p Hd. destruct (valid_pct p) eqn:Hp.
    + destruct (range_invalid_date transport i e p st Hp Hd) as [err [H Hc]].
      cbn [invoke] in H. rewrite H. split_and!; [done|by intros []|done].
    + destruct (fetch_invalid_pct transport (Get_timeseries_range i e p) p st
                  eq_refl Hp) as (err & H & _).
      cbn [invoke] in H. rewrite H. split_and!; [done|by intros []|done].
Qed.

Lemma C8_request_urls_witness :
  ∃ rq, sent (get_timeseries_range (mock 200) (PyStr "2020-01-01")
                (PyStr "2020-12-31") PyNone (mkState sample [])).2
        = [] ++ [rq]
        ∧ req_url rq
          = PyStr (base_url +:+ "SF43718" +:+ "/datos/" +:+ "2020-01-01" +:+ "/"
                   +:+ "2020-12-31").
Proof.
  apply (C8_request_urls (mock 200) (mkState sample []) "SF43718").
  - apply (reach_new (mock 200) (PyStr "old") (PyStr "SF43718") (PyStr "en")).
    reflexivity.
  - reflexivity.
  - reflexivity.
Defined.

(** C4, as stated, fails: status 201 is a 2xx success status, and the
    fetch raises the request error all the same. *)
Lemma C4_status_201_counterexample :
  200 ≤ 201 < 300
  ∧ (get_metadata (mock 201) (mkState sample [])).1
    = Raise (request_error Get_metadata 201)
  ∧ raises (get_metadata (mock 201) (mkState sample [])).1 RequestException.
Proof. split; [lia|]. split; reflexivity. Qed.

(** C4, amended.  In every state a program can reach, a fetch whose
    arguments pass the checks hands one request to the transport, and when
    the transport answers with a response: it raises the request error,
    whose message includes the status code, exactly when the status is not
    200; when the status is 200 its outcome is that of [response.json()],
    the parsed body returned as it is. *)
Theorem C4_status_checked transport k st :
  reachable transport st → is_fetch k = true → validates k = true →
  ∃ rq, sent (invoke transport k st).2 = sent st ++ [rq]
    ∧ ∀ response, transport (sent st) rq = Ok response →
        (status_code response ≠ 200 →
           (invoke transport k st).1
           = Raise (request_error k (status_code response))
           ∧ exn_cls (request_error k (status_code response)) = RequestException
           ∧ includes (exn_msg (request_error k (status_code response)))
                      (pretty (status_code response)))
        ∧ (status_code response = 200 →
             (invoke transport k st).1 = json response)
        ∧ (∀ body, json response = Ok body →
             (raises (invoke transport k st).1 RequestException
              ↔ status_code response ≠ 200)
             ∧ (status_code response = 200 →
                  (invoke transport k st).1 = Ok body)).
Proof.
  intros Hr Hf Hv. apply reachable_wf in Hr.
  destruct (wf_fetch_validates transport k st Hr Hf Hv) as [sel [_ H]].
  rewrite H. cbn zeta. simp_obj. eexists. split; [done|].
  intros response ->. unfold respond.
  destruct (request_error_includes k (status_code response)) as [Hc Hi].
  split_and!.
  - intros Hne. by rewrite bool_decide_eq_true_2.
  - intros Heq. by rewrite bool_decide_eq_false_2 by (by intros ?).
  - intros body Hb. case_bool_decide as Hne.
    + split; [done|]. by intros ?.
    + rewrite Hb. split; [|done]. split; [done|]. by intros ?.
Qed.

Lemma C4_status_checked_witness :
  (invoke (mock 404) (Get_lastdata PyNone) (mkState sample [])).1
  = Raise (request_error (Get_lastdata PyNone) 404)
  ∧ includes (exn_msg (request_error (Get_lastdata PyNone) 404)) "404"
  ∧ (invoke (mock 200) Get_metadata (mkState sample [])).1 = Ok sample_body.
Proof.
  assert (reachable (mock 404) (mkState sample [])) as Hr1.
  { apply (reach_new (mock 404) (PyStr "old") (PyStr "SF43718") (PyStr "en")).
    reflexivity. }
  assert (reachable (mock 200) (mkState sample [])) as Hr2.
  { apply (reach_new (mock 200) (PyStr "old") (PyStr "SF43718") (PyStr "en")).
    reflexivity. }
  destruct (C4_status_checked (mock 404) (Get_lastdata PyNone) (mkState sample [])
              Hr1 eq_refl eq_refl) as [rq1 [_ H1]].
  destruct (C4_status_checked (mock 200) Get_metadata (mkState sample [])
              Hr2 eq_refl eq_refl) as [rq2 [_ H2]].
  specialize (H1 (mkResponse 404 (Ok sample_body)) eq_refl).
  specialize (H2 (mkResponse 200 (Ok sample_body)) eq_refl).
  destruct H1 as [H1 _]. destruct H2 as [_ [H2 _]].
  destruct H1 as (Ha & _ & Hb); [simpl; lia|].
  split; [exact Ha|]. split; [exact Hb|].
  apply H2. reflexivity.
Defined.

(** C2, as stated, fails: [get_timeseries_range] with a valid
    [pct_change] and a final date that is not a string raises [TypeError]
    before any request, but [incremento] has been written by then and the
    params mapping is not what it was. *)
Lemma C2_params_changed_counterexample :
  raises (get_timeseries_range (mock 200) (PyStr "2020-01-01") (PyInt 2020)
            (PyStr "PorcAnual") (mkState sample [])).1 TypeError
  ∧ sent (get_timeseries_range (mock 200) (PyStr "2020-01-01") (PyInt 2020)
            (PyStr "PorcAnual") (mkState sample [])).2 = []
  ∧ __params sample !! "incremento" = None
  ∧ __params (self (get_timeseries_range (mock 200) (PyStr "2020-01-01")
                      (PyInt 2020) (PyStr "PorcAnual") (mkState sample [])).2)
      !! "incremento" = Some (PyStr "PorcAnual")
  ∧ __params (self (get_timeseries_range (mock 200) (PyStr "2020-01-01")
                      (PyInt 2020) (PyStr "PorcAnual") (mkState sample [])).2)
    ≠ __params sample.
Proof.
  split_and!; try reflexivity.
  intros H. apply (f_equal (λ m : gmap string pyval, m !! "incremento")) in H.
  discriminate H.
Qed.

(** C2, amended.  A fetch whose arguments fail a check raises [TypeError]
    or [ValueError] and hands nothing to the transport.  When it is
    [pct_change] that fails, the state is left as it was.  Otherwise the
    call is [get_timeseries_range] with a date that is not a string, and
    the object differs from what it was in one place: [incremento] holds
    the [pct_change] of the call. *)
Theorem C2_validation_errors transport k st :
  is_fetch k = true → validates k = false →
  (raises (invoke transport k st).1 TypeError
   ∨ raises (invoke transport k st).1 ValueError)
  ∧ sent (invoke transport k st).2 = sent st
  ∧ (valid_pct (pct_arg k) = false → (invoke transport k st).2 = st)
  ∧ (valid_pct (pct_arg k) = true →
       (∃ i e p, k = Get_timeseries_range i e p)
       ∧ raises (invoke transport k st).1 TypeError
       ∧ self (invoke transport k st).2
         = with_params (<["incremento" := pct_arg k]> (__params (self st)))
                       (self st)).
Proof.
  intros Hf Hv. destruct (valid_pct (pct_arg k)) eqn:Hp.
  - destruct k as [| | | |p|p|i e p]; try done; cbn [validates pct_arg] in *;
      try congruence.
    rewrite Hp in Hv. cbn [andb] in Hv.
    destruct (range_invalid_date transport i e p st Hp) as [err [H Hc]].
    { by destruct (is_str i). }
    rewrite H. cbn [fst snd]. simp_obj.
    split_and!; [by left|done|by intros ?|].
    intros _. split_and!; eauto.
  - destruct k as [| | | |p|p|i e p]; try done; cbn [pct_arg] in Hp;
      (edestruct (fetch_invalid_pct transport) as (err & H & Hc & _);
       [|exact Hp|rewrite H; cbn [fst snd raises]; split_and!;
                  [by destruct Hc; [left|right]|done|done|by intros ?]]);
      reflexivity.
Qed.

Lemma C2_validation_errors_witness :
  sent (invoke (mock 200)
          (Get_timeseries_range (PyStr "2020-01-01") (PyInt 2020) (PyStr "PorcAnual"))
          (mkState sample [])).2 = []
  ∧ (invoke (mock 200) (Get_lastdata (PyStr "bogus")) (mkState sample [])).2
    = mkState sample [].
Proof.
  split.
  - apply (C2_validation_errors (mock 200)
             (Get_timeseries_range (PyStr "2020-01-01") (PyInt 2020)
                (PyStr "PorcAnual")) (mkState sample [])); reflexivity.
  - apply (C2_validation_errors (mock 200) (Get_lastdata (PyStr "bogus"))
             (mkState sample [])); reflexivity.
Defined.

(** C1, on the code: the headers are built once, by the constructor, and
    [set_token] stores the new token without touching them.  After
    [set_token] the request of [get_metadata] still carries under
    [Bmx-Token] the token given at construction, while the stored token is
    the new one. *)
Theorem C1_header_keeps_first_token transport tok new i l c :
  SIEBanxico_new (PyStr tok) i l = Ok c →
  token (self (run transport [Set_token (PyStr new); Get_metadata]
                 (mkState c [])).2) = PyStr new
  ∧ ∃ rq, sent (run transport [Set_token (PyStr new); Get_metadata]
                  (mkState c [])).2 = [rq]
          ∧ req_headers rq !! "Bmx-Token" = Some (PyStr tok).
Proof.
  intros H.
  apply new_inv in H as (tok' & sel & lang & [= <-] & _ & _ & _ & ->).
  cbn [run invoke]. monad_unfold. rewrite set_token_str.
  pose proof (fetch_validates transport Get_metadata
                (mkState (with_token (PyStr new) (constructed tok sel lang)) [])
                sel eq_refl eq_refl eq_refl eq_refl) as Hg.
  cbn [invoke] in Hg. simp_obj. rewrite Hg. cbn zeta. simp_obj.
  destruct (respond _ _); simp_obj; (split; [done|]); eexists;
    (split; [done|]); simp_obj; by rewrite lookup_singleton_eq.
Qed.

Lemma C1_header_keeps_first_token_witness :
  token (self (run (mock 200) [Set_token (PyStr "new"); Get_metadata]
                 (mkState sample [])).2) = PyStr "new"
  ∧ ∃ rq, sent (run (mock 200) [Set_token (PyStr "new"); Get_metadata]
                  (mkState sample [])).2 = [rq]
          ∧ req_headers rq !! "Bmx-Token" = Some (PyStr "old").
Proof.
  apply (C1_header_keeps_first_token (mock 200) "old" "new" (PyStr "SF43718")
           (PyStr "en") sample).
  reflexivity.
Defined.


(** * Further properties of the class *)

(** ** Helper lemmas *)

Lemma joined_app sep (ids1 ids2 : list string) :
  ids1 ≠ [] → ids2 ≠ [] →
  joined sep (ids1 ++ ids2) = joined sep ids1 +:+ sep +:+ joined sep ids2.
Proof.
  intros H1 H2. induction ids1 as [|a ids1 IH]; [done|].
  destruct ids1 as [|b ids1].
  - destruct ids2; done.
  - change (a +:+ sep +:+ joined sep ((b :: ids1) ++ ids2)
            = (a +:+ sep +:+ joined sep (b :: ids1)) +:+ sep +:+ joined sep ids2).
    rewrite IH by done. by rewrite !string_app_assoc.
Qed.

Lemma py_iadd_str_raise a s e :
  py_iadd a (PyStr s) = Raise e → exn_cls e = TypeError.
Proof. destruct a as [|[]| | | |]; cbn; by intros [= <-]. Qed.

Section Calls.

Variable transport : list Request → Request → result Response.

(** What a call hands to the transport: at most one request, after those
    already sent, none for a mutator; the request carries the headers of
    the object and its params with a valid [incremento] stored. *)
Lemma invoke_sent k st :
  ∃ new, sent (invoke transport k st).2 = sent st ++ new
    ∧ (length new ≤ 1)%nat
    ∧ (is_fetch k = false → new = [])
    ∧ ∀ rq, rq ∈ new →
        req_headers rq = __headers (self st)
        ∧ valid_pct (pct_arg k) = true
        ∧ req_params rq = <["incremento" := pct_arg k]> (__params (self st)).
Proof.
  destruct (invoke transport k st) as [r st'] eqn:H. cbn [snd].
  destruct (is_fetch k) eqn:Hf.
  - destruct (fetch_frame transport k st r st' Hf H)
      as [[_ ->]|(Hp & _ & [Hs|[u Hs]])].
    + exists []. rewrite app_nil_r. split_and!; [done|cbn; lia|done|].
      intros rq Hin. by apply elem_of_nil in Hin.
    + exists []. rewrite app_nil_r. split_and!; [done|cbn; lia|done|].
      intros rq Hin. by apply elem_of_nil in Hin.
    + eexists. split_and!; [exact Hs|cbn; lia|done|].
      intros rq Hin. by apply list_elem_of_singleton in Hin as ->.
  - destruct (mutator_frame transport k st r st' Hf H) as [Hs _].
    exists []. rewrite app_nil_r. split_and!; [done|cbn; lia|done|].
    intros rq Hin. by apply elem_of_nil in Hin.
Qed.

Lemma invoke_locale k st :
  __params (self (invoke transport k st).2) !! "locale"
  = __params (self st) !! "locale".
Proof.
  destruct (invoke_params transport k st) as [->|(p & _ & ->)]; [done|].
  by rewrite lookup_insert_ne.
Qed.

Lemma exec_cons k ks st :
  exec transport (k :: ks) st = exec transport ks (invoke transport k st).2.
Proof. done. Qed.

(** The requests of a sequence of calls all carry the headers and the
    locale that the object had before the first call, and a valid
    [incremento]. *)
Lemma exec_sent ks st :
  ∃ new, sent (exec transport ks st) = sent st ++ new
    ∧ (length new ≤ length ks)%nat
    ∧ ∀ rq, rq ∈ new →
        req_headers rq = __headers (self st)
        ∧ req_params rq !! "locale" = __params (self st) !! "locale"
        ∧ ∃ p, req_params rq !! "incremento" = Some p ∧ valid_pct p = true.
Proof.
  revert st. induction ks as [|k ks IH]; intros st.
  - exists []. rewrite app_nil_r. split_and!; [done..|].
    intros rq Hin. by apply elem_of_nil in Hin.
  - rewrite exec_cons.
    destruct (invoke_sent k st) as (new1 & Hs1 & Hl1 & _ & Hq1).
    destruct (IH (invoke transport k st).2) as (new2 & Hs2 & Hl2 & Hq2).
    exists (new1 ++ new2). split_and!.
    + by rewrite Hs2, Hs1, app_assoc.
    + rewrite length_app. cbn [length]. lia.
    + intros rq Hin. apply elem_of_app in Hin as [Hin|Hin].
      * destruct (Hq1 rq Hin) as (Hh & Hp & Hpar). split_and!; [done|..].
        -- by rewrite Hpar, lookup_insert_ne.
        -- exists (pct_arg k). by rewrite Hpar, lookup_insert_eq.
      * destruct (Hq2 rq Hin) as (Hh & Hloc & Hinc).
        by rewrite Hh, Hloc, invoke_headers, invoke_locale.
Qed.

End Calls.

(** ** Construction *)

(** X1.  Construction returns exactly when the token is a string, the
    series argument is a string or a list that joins, and the language is
    ["en"] or ["es"]; the object then holds the token, the selector, the
    base URL, the token under [Bmx-Token] and the language under [locale]
    as the only param.  No other condition is checked: an empty token or
    selector is accepted. *)
Theorem X1_construction_exact t i l c :
  SIEBanxico_new t i l = Ok c
  ↔ ∃ tok sel lang,
      t = PyStr tok ∧ selector i = Some sel ∧ l = PyStr lang
      ∧ lang ∈ ["en"; "es"] ∧ c = constructed tok sel lang.
Proof.
  split; [apply new_inv|].
  intros (tok & sel & lang & -> & Hi & -> & Hl & ->). by apply new_ok.
Qed.

Lemma X1_construction_exact_witness :
  SIEBanxico_new (PyStr "") (PyList []) (PyStr "es") = Ok (constructed "" "" "es").
Proof.
  apply (X1_construction_exact (PyStr "") (PyList []) (PyStr "es")
           (constructed "" "" "es")).
  exists "", "", "es". split; [reflexivity|]. split; [reflexivity|].
  split; [reflexivity|]. split; [|reflexivity].
  apply list_elem_of_In. simpl. right. left. reflexivity.
Defined.

(** X2.  The constructor checks its arguments in the order token, series,
    language, and the first check that fails decides the exception: a
    token that is not a string gives the token message whatever the other
    two arguments are; with a string token, a series argument that is
    neither a string nor a list gives the series message whatever the
    language is; with both accepted, a language that is not a string gives
    the language message. *)
Theorem X2_construction_check_order t i l :
  (type_ t ≠ str_ →
     SIEBanxico_new t i l
     = Raise (Exn TypeError (dq +:+ "token" +:+ dq +:+ " must be a string.")))
  ∧ (type_ t = str_ → type_ i ≠ str_ → type_ i ≠ list_ →
       SIEBanxico_new t i l
       = Raise (Exn TypeError
                  (dq +:+ "id_series" +:+ dq
                   +:+ " must be a list with strings or a single string.")))
  ∧ (type_ t = str_ → is_Some (selector i) → type_ l ≠ str_ →
       SIEBanxico_new t i l
       = Raise (Exn TypeError (dq +:+ "language" +:+ dq +:+ " must be a string."))).
Proof.
  split_and!.
  - intros Ht. by destruct t.
  - intros Ht Hs Hl. destruct t; try done. by destruct i.
  - intros Ht [sel Hi] Hl. destruct t as [| | |tok| |]; try done.
    unfold SIEBanxico_new. rewrite (init_prefix tok i sel l) by done.
    by destruct l.
Qed.

Lemma X2_construction_check_order_witness :
  SIEBanxico_new (PyInt 123) PyNone (PyStr "fr")
  = Raise (Exn TypeError (dq +:+ "token" +:+ dq +:+ " must be a string."))
  ∧ SIEBanxico_new (PyStr "t") PyNone (PyStr "fr")
    = Raise (Exn TypeError
               (dq +:+ "id_series" +:+ dq
                +:+ " must be a list with strings or a single string."))
  ∧ SIEBanxico_new (PyStr "t") (PyStr "SF43718") (PyBool true)
    = Raise (Exn TypeError (dq +:+ "language" +:+ dq +:+ " must be a string.")).
Proof.
  split; [|split].
  - apply (X2_construction_check_order (PyInt 123) PyNone (PyStr "fr")).
    discriminate.
  - apply (X2_construction_check_order (PyStr "t") PyNone (PyStr "fr")).
    + reflexivity.
    + discriminate.
    + discriminate.
  - apply (X2_construction_check_order (PyStr "t") (PyStr "SF43718") (PyBool true)).
    + reflexivity.
    + exists "SF43718". reflexivity.
    + discriminate.
Defined.

(** ** What holds in every state *)

(** X3.  In every state a program can reach, through calls that return
    and calls that raise alike, the token and the selector are strings and
    the URL is the base URL: no method stores a value of another type. *)
Theorem X3_attributes_stay_strings transport st :
  reachable transport st →
  (∃ tok, token (self st) = PyStr tok)
  ∧ (∃ sel, series (self st) = PyStr sel)
  ∧ __url (self st) = PyStr base_url.
Proof.
  intros Hr. apply reachable_wf in Hr as [Ht Hs Hu _ _]. split_and!.
  - destruct (token (self st)); try done. by eexists.
  - destruct (series (self st)); try done. by eexists.
  - done.
Qed.

Lemma X3_attributes_stay_strings_witness :
  (∃ tok, token (self (invoke (mock 404) (Append_id_series (PyList [PyInt 1]))
                         (mkState sample [])).2) = PyStr tok)
  ∧ (∃ sel, series (self (invoke (mock 404) (Append_id_series (PyList [PyInt 1]))
                            (mkState sample [])).2) = PyStr sel)
  ∧ __url (self (invoke (mock 404) (Append_id_series (PyList [PyInt 1]))
                   (mkState sample [])).2) = PyStr base_url.
Proof.
  apply (X3_attributes_stay_strings (mock 404)).
  apply (reach_invoke (mock 404) (Append_id_series (PyList [PyInt 1]))).
  apply (reach_new (mock 404) (PyStr "old") (PyStr "SF43718") (PyStr "en")).
  reflexivity.
Defined.

(** X4.  The token sent is fixed at construction: whatever calls follow
    the construction, [set_token] included, and whether they return or
    raise, every request handed to the transport carries under
    [Bmx-Token] the token that the constructor was given, and nothing else
    in its headers. *)
Theorem X4_requests_carry_construction_token transport tok i l c ks rq :
  SIEBanxico_new (PyStr tok) i l = Ok c →
  rq ∈ sent (exec transport ks (mkState c [])) →
  req_headers rq = {[ "Bmx-Token" := PyStr tok ]}.
Proof.
  intros H Hin.
  apply new_inv in H as (tok' & sel & lang & [= <-] & _ & _ & _ & ->).
  destruct (exec_sent transport ks (mkState (constructed tok sel lang) []))
    as (new & Hs & _ & Hq).
  rewrite Hs in Hin. cbn [sent app] in Hin.
  by destruct (Hq rq Hin) as [-> _].
Qed.

Lemma X4_requests_carry_construction_token_witness :
  req_headers (mkRequest (PyStr (base_url +:+ "SF43718,SF43787" +:+ "/datos"))
                 {[ "Bmx-Token" := PyStr "old" ]}
                 (<["incremento" := PyNone]> {[ "locale" := PyStr "en" ]}))
  = {[ "Bmx-Token" := PyStr "old" ]}.
Proof.
  apply (X4_requests_carry_construction_token (mock 200) "old" (PyStr "SF43718")
           (PyStr "en") sample
           [Set_token (PyStr "new"); Append_id_series (PyList [PyStr "SF43787"]);
            Get_timeseries PyNone]).
  - reflexivity.
  - apply list_elem_of_In. vm_compute. left. reflexivity.
Defined.

(** X5.  Every request that follows a construction carries under [locale]
    the language given to the constructor, and carries an [incremento]
    entry that is [None] or one of the three literals: no fetch sends the
    params without having stored [incremento] first. *)
Theorem X5_requests_carry_locale transport tok i lang c ks rq :
  SIEBanxico_new (PyStr tok) i (PyStr lang) = Ok c →
  rq ∈ sent (exec transport ks (mkState c [])) →
  req_params rq !! "locale" = Some (PyStr lang)
  ∧ ∃ p, req_params rq !! "incremento" = Some p ∧ valid_pct p = true.
Proof.
  intros H Hin.
  apply new_inv in H as (tok' & sel & lang' & _ & _ & [= <-] & _ & ->).
  destruct (exec_sent transport ks (mkState (constructed tok' sel lang) []))
    as (new & Hs & _ & Hq).
  rewrite Hs in Hin. cbn [sent app] in Hin.
  destruct (Hq rq Hin) as (_ & -> & Hinc). split; [|done].
  simp_obj. by rewrite lookup_singleton_eq.
Qed.

Lemma X5_requests_carry_locale_witness :
  req_params (mkRequest (PyStr (base_url +:+ "SF43718" +:+ "/datos/oportuno"))
                {[ "Bmx-Token" := PyStr "old" ]}
                (<["incremento" := PyStr "PorcAnual"]> {[ "locale" := PyStr "en" ]}))
    !! "locale" = Some (PyStr "en")
  ∧ ∃ p, req_params
           (mkRequest (PyStr (base_url +:+ "SF43718" +:+ "/datos/oportuno"))
              {[ "Bmx-Token" := PyStr "old" ]}
              (<["incremento" := PyStr "PorcAnual"]> {[ "locale" := PyStr "en" ]}))
           !! "incremento" = Some p ∧ valid_pct p = true.
Proof.
  apply (X5_requests_carry_locale (mock 200) "old" (PyStr "SF43718") "en" sample
           [Get_lastdata (PyStr "bogus"); Get_lastdata (PyStr "PorcAnual")]).
  - reflexivity.
  - apply list_elem_of_In. vm_compute. left. reflexivity.
Defined.

(** ** Calls and requests *)

Lemma fetch_invalid_sent transport k st :
  is_fetch k = true → validates k = false →
  sent (invoke transport k st).2 = sent st.
Proof.
  intros Hf Hv. destruct (valid_pct (pct_arg k)) eqn:Hp.
  - destruct k as [| | | |p|p|i e p]; try done; cbn [validates pct_arg] in *;
      try congruence.
    rewrite Hp in Hv. cbn [andb] in Hv.
    destruct (range_invalid_date transport i e p st Hp) as [err [H _]].
    { by destruct (is_str i). }
    by rewrite H.
  - destruct (invoke transport k st) as [r st'] eqn:H.
    destruct (fetch_frame transport k st r st' Hf H) as [[_ ->]|[Hp' _]];
      [done|congruence].
Qed.

(** X6.  In every state a program can reach, a call hands the transport
    exactly one request when it is a fetch whose arguments pass the
    checks, and none otherwise; the requests sent before are kept, in
    order. *)
Theorem X6_one_request_per_valid_fetch transport k st :
  reachable transport st →
  if is_fetch k && validates k
  then ∃ rq, sent (invoke transport k st).2 = sent st ++ [rq]
  else sent (invoke transport k st).2 = sent st.
Proof.
  intros Hr. apply reachable_wf in Hr.
  destruct (is_fetch k) eqn:Hf; cbn [andb].
  - destruct (validates k) eqn:Hv.
    + destruct (wf_fetch_validates transport k st Hr Hf Hv) as [sel [_ H]].
      rewrite H. cbn zeta. simp_obj. by eexists.
    + by apply fetch_invalid_sent.
  - destruct (invoke transport k st) as [r st'] eqn:H.
    by destruct (mutator_frame transport k st r st' Hf H) as [Hs _].
Qed.

Lemma X6_one_request_per_valid_fetch_witness :
  (∃ rq, sent (invoke (mock 404) (Get_timeseries (PyStr "PorcAnual"))
                 (mkState sample [])).2 = [] ++ [rq])
  ∧ sent (invoke (mock 404) (Get_timeseries (PyStr "Anual")) (mkState sample [])).2
    = [].
Proof.
  assert (reachable (mock 404) (mkState sample [])) as Hr.
  { apply (reach_new (mock 404) (PyStr "old") (PyStr "SF43718") (PyStr "en")).
    reflexivity. }
  split.
  - apply (X6_one_request_per_valid_fetch (mock 404)
             (Get_timeseries (PyStr "PorcAnual")) (mkState sample []) Hr).
  - apply (X6_one_request_per_valid_fetch (mock 404)
             (Get_timeseries (PyStr "Anual")) (mkState sample []) Hr).
Defined.

Lemma set_token_series transport t st :
  series (self (invoke transport (Set_token t) st).2) = series (self st)
  ∧ __params (self (invoke transport (Set_token t) st).2) = __params (self st).
Proof.
  cbn [invoke]. monad_unfold.
  destruct (decide (type_ t = str_)) as [Ht|Ht].
  - destruct t; try done; by rewrite set_token_str.
  - edestruct (set_token_not_str t st) as [e [He _]]; [done|]. by rewrite He.
Qed.

Lemma set_series_token transport k st :
  (∃ i, k = Set_id_series i ∨ k = Append_id_series i) →
  token (self (invoke transport k st).2) = token (self st).
Proof.
  intros [i [-> | ->]]; cbn [invoke]; monad_unfold.
  - pose proof (set_id_series_eq i st) as Hs. destruct (selector i).
    + by rewrite Hs.
    + destruct Hs as [e [-> _]]. done.
  - destruct (decide (type_ i = list_)) as [Hi|Hi].
    + destruct i; try done. rewrite append_id_series_list.
      destruct (str_join "," items); [|done]. by destruct (py_iadd _ _).
    + edestruct (append_id_series_not_list i st) as [e [-> _]]; done.
Qed.

(** X7.  What a call never touches, whether it returns or raises.  No
    call changes the URL, the headers or the language.  A fetch changes
    neither the token nor the selector.  A mutator changes no param and
    sends nothing; [set_token] leaves the selector, and [set_id_series]
    and [append_id_series] leave the token. *)
Theorem X7_call_frame transport k st :
  __url (self (invoke transport k st).2) = __url (self st)
  ∧ __headers (self (invoke transport k st).2) = __headers (self st)
  ∧ __language (self (invoke transport k st).2) = __language (self st)
  ∧ (is_fetch k = true →
       token (self (invoke transport k st).2) = token (self st)
       ∧ series (self (invoke transport k st).2) = series (self st))
  ∧ (is_fetch k = false →
       __params (self (invoke transport k st).2) = __params (self st)
       ∧ sent (invoke transport k st).2 = sent st)
  ∧ (∀ t, k = Set_token t →
       series (self (invoke transport k st).2) = series (self st))
  ∧ (∀ i, k = Set_id_series i ∨ k = Append_id_series i →
       token (self (invoke transport k st).2) = token (self st)).
Proof.
  assert (__url (self (invoke transport k st).2) = __url (self st)
          ∧ __language (self (invoke transport k st).2) = __language (self st)
          ∧ (is_fetch k = true →
               token (self (invoke transport k st).2) = token (self st)
               ∧ series (self (invoke transport k st).2) = series (self st))
          ∧ (is_fetch k = false →
               __params (self (invoke transport k st).2) = __params (self st)
               ∧ sent (invoke transport k st).2 = sent st)) as (Hu & Hl & Hf & Hm).
  { destruct (invoke transport k st) as [r st'] eqn:H. cbn [snd].
    destruct (is_fetch k) eqn:Hk.
    - destruct (fetch_frame transport k st r st' Hk H) as [[_ ->]|(_ & -> & _)];
        by split_and!.
    - destruct (mutator_frame transport k st r st' Hk H)
        as (Hs & [->|[[s ->]|(v & -> & _)]]); by split_and!. }
  split_and!; try done.
  - apply invoke_headers.
  - intros t ->. apply set_token_series.
  - intros i Hi. apply set_series_token. by exists i.
Qed.

Lemma X7_call_frame_witness :
  token (self (invoke (mock 200) Get_metadata (mkState sample [])).2) = token sample
  ∧ series (self (invoke (mock 200) (Set_token (PyStr "new")) (mkState sample [])).2)
    = series sample
  ∧ token (self (invoke (mock 200) (Set_id_series (PyStr "SF43787"))
                   (mkState sample [])).2) = token sample.
Proof.
  split; [|split].
  - apply (X7_call_frame (mock 200) Get_metadata (mkState sample [])). reflexivity.
  - apply (X7_call_frame (mock 200) (Set_token (PyStr "new")) (mkState sample [])
           ) with (PyStr "new").
    reflexivity.
  - apply (X7_call_frame (mock 200) (Set_id_series (PyStr "SF43787"))
             (mkState sample [])) with (PyStr "SF43787").
    left. reflexivity.
Defined.

(** X8.  A fetch catches nothing and undoes nothing.  In every state a
    program can reach, when the arguments pass the checks the
    [pct_change] of the call stays stored under [incremento] whatever the
    transport does, and an exception of the transport is the exception of
    the call, with the request counted as sent. *)
Theorem X8_transport_error_propagates transport k st :
  reachable transport st → is_fetch k = true → validates k = true →
  __params (self (invoke transport k st).2)
  = <["incremento" := pct_arg k]> (__params (self st))
  ∧ ∃ rq, sent (invoke transport k st).2 = sent st ++ [rq]
          ∧ ∀ e, transport (sent st) rq = Raise e →
                 (invoke transport k st).1 = Raise e.
Proof.
  intros Hr Hf Hv. apply reachable_wf in Hr.
  destruct (wf_fetch_validates transport k st Hr Hf Hv) as [sel [_ H]].
  rewrite H. cbn zeta. simp_obj. split; [done|]. eexists. split; [done|].
  by intros e ->.
Qed.

Lemma X8_transport_error_propagates_witness :
  (invoke down (Get_lastdata (PyStr "PorcAnual")) (mkState sample [])).1
  = Raise (Exn ConnectionError "Max retries exceeded")
  ∧ __params (self (invoke down (Get_lastdata (PyStr "PorcAnual"))
                      (mkState sample [])).2) !! "incremento"
    = Some (PyStr "PorcAnual").
Proof.
  assert (reachable down (mkState sample [])) as Hr.
  { apply (reach_new down (PyStr "old") (PyStr "SF43718") (PyStr "en")).
    reflexivity. }
  destruct (X8_transport_error_propagates down (Get_lastdata (PyStr "PorcAnual"))
              (mkState sample []) Hr eq_refl eq_refl) as [Hp [rq [Hs He]]].
  split.
  - apply He. reflexivity.
  - rewrite Hp. reflexivity.
Defined.

(** X9.  Repeating a fetch changes nothing more.  In every state a
    program can reach, the same fetch made twice with arguments that pass
    the checks hands the transport the same request twice, and leaves the
    object as the first call left it. *)
Theorem X9_repeated_fetch transport k st :
  reachable transport st → is_fetch k = true → validates k = true →
  self (invoke transport k (invoke transport k st).2).2
  = self (invoke transport k st).2
  ∧ ∃ rq, sent (invoke transport k st).2 = sent st ++ [rq]
          ∧ sent (invoke transport k (invoke transport k st).2).2
            = sent st ++ [rq; rq].
Proof.
  intros Hr Hf Hv. apply reachable_wf in Hr.
  destruct (wf_fetch_validates transport k st Hr Hf Hv) as [sel [Hs H]].
  destruct Hr as [_ _ Hu _ _].
  rewrite H. cbn zeta. simp_obj.
  rewrite (fetch_validates transport k _ sel Hf Hv); [|by simp_obj..].
  cbn zeta. simp_obj. rewrite insert_insert_eq. split; [done|].
  eexists. split; [done|]. by rewrite <- app_assoc.
Qed.

Lemma X9_repeated_fetch_witness :
  self (invoke (mock 200) (Get_timeseries (PyStr "PorcAnual"))
          (invoke (mock 200) (Get_timeseries (PyStr "PorcAnual"))
             (mkState sample [])).2).2
  = self (invoke (mock 200) (Get_timeseries (PyStr "PorcAnual"))
            (mkState sample [])).2.
Proof.
  apply (X9_repeated_fetch (mock 200) (Get_timeseries (PyStr "PorcAnual"))
           (mkState sample [])).
  - apply (reach_new (mock 200) (PyStr "old") (PyStr "SF43718") (PyStr "en")).
    reflexivity.
  - reflexivity.
  - reflexivity.
Defined.

(** X13.  [get_metadata] has no argument that can fail a check: in every
    state a program can reach it hands one request to the transport, and
    it stores [None] under [incremento] first, so the request does not
    carry a [pct_change] left by an earlier fetch. *)
Theorem X13_metadata_resets_incremento transport st :
  reachable transport st →
  ∃ rq, sent (get_metadata transport st).2 = sent st ++ [rq]
        ∧ req_params rq = <["incremento" := PyNone]> (__params (self st))
        ∧ req_params rq !! "incremento" = Some PyNone
        ∧ __params (self (get_metadata transport st).2) = req_params rq.
Proof.
  intros Hr. apply reachable_wf in Hr.
  destruct (wf_fetch_validates transport Get_metadata st Hr eq_refl eq_refl)
    as [sel [_ H]].
  cbn [invoke pct_arg] in H. rewrite H. cbn zeta. simp_obj.
  eexists. split; [done|]. simp_obj. split_and!; [done| |done].
  by rewrite lookup_insert_eq.
Qed.

Lemma X13_metadata_resets_incremento_witness :
  ∃ rq, sent (get_metadata (mock 200)
                (invoke (mock 200) (Get_lastdata (PyStr "PorcAnual"))
                   (mkState sample [])).2).2
        = sent (invoke (mock 200) (Get_lastdata (PyStr "PorcAnual"))
                  (mkState sample [])).2 ++ [rq]
        ∧ req_params rq
          = <["incremento" := PyNone]>
              (__params (self (invoke (mock 200) (Get_lastdata (PyStr "PorcAnual"))
                                 (mkState sample [])).2))
        ∧ req_params rq !! "incremento" = Some PyNone
        ∧ __params (self (get_metadata (mock 200)
                            (invoke (mock 200) (Get_lastdata (PyStr "PorcAnual"))
                               (mkState sample [])).2).2) = req_params rq.
Proof.
  apply (X13_metadata_resets_incremento (mock 200)).
  apply (reach_invoke (mock 200) (Get_lastdata (PyStr "PorcAnual"))).
  apply (reach_new (mock 200) (PyStr "old") (PyStr "SF43718") (PyStr "en")).
  reflexivity.
Defined.

(** ** The mutators *)

Lemma append_id_series_strings old ids st :
  series (self st) = PyStr old →
  append_id_series (PyList (PyStr <$> ids)) st
  = (Ok (), mkState (with_series (PyStr (old +:+ "," +:+ joined "," ids)) (self st))
                    (sent st)).
Proof. intros Hs. by rewrite append_id_series_list, str_join_strings, Hs. Qed.

Lemma set_id_series_strings ids st :
  set_id_series (PyList (PyStr <$> ids)) st
  = (Ok (), mkState (with_series (PyStr (joined "," ids)) (self st)) (sent st)).
Proof. by rewrite set_id_series_list, str_join_strings. Qed.

(** X10.  The empty list is accepted everywhere.  [set_id_series([])]
    stores the empty selector, [append_id_series([])] leaves the selector
    with a comma at its end, and construction with [[]] returns; the
    request of [get_metadata] on that object goes to the bare base URL. *)
Theorem X10_empty_list_accepted :
  (∀ st, set_id_series (PyList []) st
         = (Ok (), mkState (with_series (PyStr "") (self st)) (sent st)))
  ∧ (∀ st old, series (self st) = PyStr old →
       append_id_series (PyList []) st
       = (Ok (), mkState (with_series (PyStr (old +:+ ",")) (self st)) (sent st)))
  ∧ (∀ transport tok lang, lang ∈ ["en"; "es"] →
       SIEBanxico_new (PyStr tok) (PyList []) (PyStr lang)
       = Ok (constructed tok "" lang)
       ∧ ∃ rq, sent (get_metadata transport (mkState (constructed tok "" lang) [])).2
               = [rq]
               ∧ req_url rq = PyStr base_url).
Proof.
  split_and!.
  - intros st. apply (set_id_series_strings []).
  - intros st old Hs. by rewrite (append_id_series_strings old []).
  - intros transport tok lang Hl. split; [by apply new_ok|].
    pose proof (fetch_validates transport Get_metadata
                  (mkState (constructed tok "" lang) []) ""
                  eq_refl eq_refl eq_refl eq_refl) as H.
    cbn [invoke suffix] in H. rewrite H. cbn zeta. simp_obj.
    eexists. split; [done|]. simp_obj. by rewrite string_app_nil_r.
Qed.

Lemma X10_empty_list_accepted_witness :
  append_id_series (PyList []) (mkState sample [])
  = (Ok (), mkState (with_series (PyStr ("SF43718" +:+ ",")) sample) [])
  ∧ SIEBanxico_new (PyStr "t") (PyList []) (PyStr "en") = Ok (constructed "t" "" "en").
Proof.
  destruct X10_empty_list_accepted as (_ & H2 & H3). split.
  - apply (H2 (mkState sample []) "SF43718"). reflexivity.
  - apply (H3 (mock 200) "t" "en").
    apply list_elem_of_In. simpl. left. reflexivity.
Defined.

(** X11.  Appending composes, for lists that are not empty: appending
    [ids1] and then [ids2] is appending [ids1 ++ ids2] at once, and
    setting [ids1] and then appending [ids2] is setting [ids1 ++ ids2]. *)
Theorem X11_append_composes ids1 ids2 old st :
  ids1 ≠ [] → ids2 ≠ [] → series (self st) = PyStr old →
  append_id_series (PyList (PyStr <$> ids2))
    (append_id_series (PyList (PyStr <$> ids1)) st).2
  = append_id_series (PyList (PyStr <$> (ids1 ++ ids2))) st
  ∧ append_id_series (PyList (PyStr <$> ids2))
      (set_id_series (PyList (PyStr <$> ids1)) st).2
    = set_id_series (PyList (PyStr <$> (ids1 ++ ids2))) st.
Proof.
  intros H1 H2 Hs. split.
  - rewrite (append_id_series_strings old ids1 st Hs). cbn [snd].
    rewrite (append_id_series_strings (old +:+ "," +:+ joined "," ids1) ids2)
      by done.
    rewrite (append_id_series_strings old (ids1 ++ ids2) st Hs).
    simp_obj. by rewrite joined_app, !string_app_assoc.
  - rewrite (set_id_series_strings ids1 st). cbn [snd].
    rewrite (append_id_series_strings (joined "," ids1) ids2) by done.
    rewrite (set_id_series_strings (ids1 ++ ids2) st).
    simp_obj. by rewrite joined_app.
Qed.

Lemma X11_append_composes_witness :
  append_id_series (PyList (PyStr <$> ["SF3"]))
    (append_id_series (PyList (PyStr <$> ["SF1"; "SF2"])) (mkState sample [])).2
  = append_id_series (PyList (PyStr <$> (["SF1"; "SF2"] ++ ["SF3"])))
      (mkState sample []).
Proof.
  apply (X11_append_composes ["SF1"; "SF2"] ["SF3"] "SF43718" (mkState sample [])).
  - discriminate.
  - discriminate.
  - reflexivity.
Defined.

(** X12.  A mutator that raises has done nothing: [set_token],
    [set_id_series] and [append_id_series] raise no exception but
    [TypeError], and when one raises the state is what it was before the
    call. *)
Theorem X12_mutator_raise_atomic transport k st e :
  is_fetch k = false → (invoke transport k st).1 = Raise e →
  exn_cls e = TypeError ∧ (invoke transport k st).2 = st.
Proof.
  intros Hf. destruct k as [t|i|i| | | |]; try done; cbn [invoke]; monad_unfold.
  - destruct (decide (type_ t = str_)) as [Ht|Ht].
    + destruct t; try done; by rewrite set_token_str.
    + edestruct (set_token_not_str t st) as [e' [He Hc]]; [done|].
      rewrite He. by intros [= <-].
  - pose proof (set_id_series_eq i st) as Hs. destruct (selector i).
    + by rewrite Hs.
    + destruct Hs as [e' [-> Hc]]. by intros [= <-].
  - destruct (decide (type_ i = list_)) as [Hi|Hi].
    + destruct i; try done. rewrite append_id_series_list.
      destruct (str_join "," items) as [j|e'] eqn:Hj.
      * destruct (py_iadd _ _) as [v|e'] eqn:Ha; [done|].
        intros [= <-]. split; [|done]. by eapply py_iadd_str_raise.
      * intros [= <-]. split; [|done]. by eapply join_from_raise.
    + edestruct (append_id_series_not_list i st) as [e' [-> Hc]]; [done|].
      by intros [= <-].
Qed.

Lemma X12_mutator_raise_atomic_witness :
  exn_cls (Exn TypeError (dq +:+ "token" +:+ dq +:+ " must be a string."))
  = TypeError
  ∧ (invoke (mock 200) (Set_token (PyInt 123)) (mkState sample [])).2
    = mkState sample [].
Proof.
  apply (X12_mutator_raise_atomic (mock 200) (Set_token (PyInt 123))
           (mkState sample [])).
  - reflexivity.
  - reflexivity.
Defined.
